(** * aleph.js: session store, route matcher and SSR document rewriter

    A shallow embedding of [server/renderer.ts] (the [fetch] entry point and
    [matchRoute]) and of the session module ([MemorySessionStorage],
    [SessionImpl]), with the properties of the specification stated over it.

    Conventions of the embedding:
    - JavaScript values are the inductive [jsval]; numbers are integers
      ([Z]), so NaN, infinities and fractions are outside the model;
    - mutable objects are passed explicitly and returned updated;
    - asynchronous functions run to completion in one step: an [await] is a
      sequencing point of the state monad [M], and the calls that matter
      are recorded in a log carried by the monad's state; where an [await]
      separates the test of a variable shared by all calls from its
      assignment, as in the initialisation of the rewriting engine, the
      two sides of the [await] are steps of their own;
    - a thrown exception (or a rejected promise) is the result [Throw]
      with the value thrown, an [Error] or any other value;
    - the base document is the tree of its elements, and the streaming
      rewriter a traversal of that tree in document order. *)

From Stdlib Require Import ZArith String List Bool Lia DecimalString.
From stdpp Require Import gmap strings list.

Local Open Scope string_scope.
Local Open Scope list_scope.
Local Open Scope Z_scope.

(** ** JavaScript values *)

#[warnings="-register-all"] Inductive jsval : Type :=
| JUndefined
| JNull
| JBool (b : bool)
| JNum (n : Z)
| JStr (s : string)
| JArr (items : list jsval)
| JObj (fields : list (string * jsval)).

(** The [typeof] operator. *)
Definition typeof (v : jsval) : string :=
  match v with
  | JUndefined => "undefined"
  | JNull => "object"
  | JBool _ => "boolean"
  | JNum _ => "number"
  | JStr _ => "string"
  | JArr _ => "object"
  | JObj _ => "object"
  end.

(** ToBoolean: what [if (v)] and [!v] test. *)
Definition truthy (v : jsval) : bool :=
  match v with
  | JUndefined => false
  | JNull => false
  | JBool b => b
  | JNum n => negb (n =? 0)%Z
  | JStr s => negb (String.eqb s "")
  | JArr _ => true
  | JObj _ => true
  end.

(** A value of the language type Object (null is not one, although
    [typeof null] is ["object"]). *)
Definition is_object (v : jsval) : bool :=
  match v with
  | JArr _ | JObj _ => true
  | _ => false
  end.

(** ** State and exception monad *)

(** What a [throw] statement or a rejected promise carries: an [Error] with
    its message, or any other value ([throw null], [throw "boom"], an
    object that is no [Error]). *)
Inductive thrown : Type :=
| Error (message : string)
| Thrown (v : jsval).

(** The [TypeError] the engine throws for a property read on [null] or
    [undefined] and for a call of something that is no function. *)
Definition TypeError (message : string) : thrown := Error message.

Inductive result (A : Type) : Type :=
| Ok (a : A)
| Throw (err : thrown).
Arguments Ok {A} a.
Arguments Throw {A} err.

Definition M (W A : Type) : Type := W -> result A * W.

Definition ret {W A} (a : A) : M W A := fun w => (Ok a, w).

Definition throw {W A} (err : thrown) : M W A := fun w => (Throw err, w).

Definition bind {W A B} (m : M W A) (k : A -> M W B) : M W B :=
  fun w =>
    match m w with
    | (Ok a, w') => k a w'
    | (Throw e, w') => (Throw e, w')
    end.

Definition gets {W A} (f : W -> A) : M W A := fun w => (Ok (f w), w).

Definition modify {W} (f : W -> W) : M W unit := fun w => (Ok tt, f w).

Declare Scope js_scope.
Delimit Scope js_scope with js.
Notation "'let*' x := m 'in' k" := (bind m (fun x => k))
  (at level 10, x pattern, m at level 100, k at level 200) : js_scope.
Local Open Scope js_scope.

(** ** Documents and HTTP messages *)

(** The double quote, and a string between double quotes. *)
Definition dq : string := String (Ascii.ascii_of_nat 34) EmptyString.

Definition quoted (s : string) : string := dq +:+ s +:+ dq.

(** A document as the rewriter sees it: text, elements, and the markup a
    handler inserted with [{ html: true }], which is emitted as it is. *)
#[warnings="-register-all"] Inductive node : Type :=
| Text (s : string)
| Raw (html : string)
| Element (tagName : string) (attrs : list (string * string)) (children : list node).

Inductive body : Type :=
| BodyNull
| BodyText (text : string)
| BodyDocument (document : list node).

(** [new Response(body, { status, headers })]. *)
Record Response : Type := mkResponse {
  resp_status : Z;
  resp_headers : list (string * string);
  resp_body : body
}.

Record URL : Type := mkURL {
  origin : string;
  pathname : string;
  searchParams : list (string * string)
}.

Record Request : Type := mkRequest {
  req_url : URL;
  req_method : string;
  req_headers : list (string * string)
}.

(** [new Request(url.toString(), init)]: the request [init] with another
    URL. *)
Definition new_Request (url : URL) (init : Request) : Request :=
  mkRequest url (req_method init) (req_headers init).

(** [headers.get(name)]. *)
Fixpoint headers_get (name : string) (headers : list (string * string)) : option string :=
  match headers with
  | [] => None
  | (k, v) :: rest => if String.eqb k name then Some v else headers_get name rest
  end.

(** ** Sessions *)

Module Session.

(** The calls a session makes on its storage backend. *)
Inductive storage_call : Type :=
| CallGet (sid : string)
| CallSet (sid : string) (data : jsval) (expires : Z)
| CallDelete (sid : string).

(** The calls of [made] are no deletions. *)
Definition no_delete (made : list storage_call) : Prop :=
  forall sid, ~ In (CallDelete sid) made.

(** The [SessionStorage] interface. The value of [Date.now()] is the first
    argument of every operation; the promise each operation returns is
    already resolved. *)
Class SessionStorage (S : Type) : Type := {
  get : Z -> string -> S -> jsval * S;
  set : Z -> string -> jsval -> Z -> S -> S;
  delete : Z -> string -> S -> S
}.

(** [MemorySessionStorage]: [#store] is a [Map] from session id to the pair
    of payload and expiry timestamp. *)
Module MemorySessionStorage.

(** [new MemorySessionStorage()]: [#store] is [new Map()]. *)
Definition new : gmap string (jsval * Z) := empty.

Definition get (now : Z) (sid : string) (store : gmap string (jsval * Z))
  : jsval * gmap string (jsval * Z) :=
  let '(data, expires) := default (JUndefined, 0) (store !! sid) in
  if (0 <? expires) && (expires <? now)
  then (JUndefined, base.delete sid store)
  else (data, store).

Definition set (now : Z) (sid : string) (data : jsval) (expires : Z)
    (store : gmap string (jsval * Z)) : gmap string (jsval * Z) :=
  <[sid := (data, expires)]> store.

Definition delete (now : Z) (sid : string) (store : gmap string (jsval * Z))
  : gmap string (jsval * Z) :=
  base.delete sid store.

(** The store with one record. *)
Definition holding (sid : string) (data : jsval) (expires : Z) : gmap string (jsval * Z) :=
  <[sid := (data, expires)]> new.

End MemorySessionStorage.

#[export] Instance defaultSessionStorage : SessionStorage (gmap string (jsval * Z)) := {
  get := MemorySessionStorage.get;
  set := MemorySessionStorage.set;
  delete := MemorySessionStorage.delete
}.

(** What a session runs in: the clock read by [Date.now()], the state of the
    storage backend, which every session built on it shares, and the log of
    the calls made on the backend. *)
Record World (S : Type) : Type := mkWorld {
  clock : Z;
  backend : S;
  calls : list storage_call
}.
Arguments mkWorld {S} clock backend calls.
Arguments clock {S} w.
Arguments backend {S} w.
Arguments calls {S} w.

(** The passage of time between two calls. *)
Definition at_time {S} (t : Z) (w : World S) : World S :=
  mkWorld t (backend w) (calls w).

Record CookieOptions : Type := mkCookie {
  name : option string;
  attributes : list (string * string)
}.

Record SessionOptions : Type := mkOptions {
  maxAge : option Z;
  cookie : option CookieOptions
}.

(** The fields [#id], [#options] and [#store] of a session object; its
    [#storage] is the backend of the world. *)
Record SessionImpl : Type := mkSession {
  _id : string;
  _options : SessionOptions;
  _store : jsval
}.

(** The argument of [update]: a value, or a function of the previous
    payload. *)
Inductive update_arg : Type :=
| UVal (v : jsval)
| UFun (f : jsval -> jsval).

Definition typeof_arg (store : update_arg) : string :=
  match store with
  | UVal v => typeof v
  | UFun _ => "function"
  end.

(** [constructor(id, options)]: the cache starts undefined. *)
Definition new_SessionImpl (id : string) (options : SessionOptions) : SessionImpl :=
  mkSession id options JUndefined.

Definition with_store (this : SessionImpl) (store : jsval) : SessionImpl :=
  mkSession (_id this) (_options this) store.

Section SessionImpl.
Context {S : Type} `{SessionStorage S}.

Definition Date_now : M (World S) Z := gets clock.

Definition storage_get (sid : string) : M (World S) jsval :=
  fun w =>
    let '(data, b) := get (clock w) sid (backend w) in
    (Ok data, mkWorld (clock w) b (calls w ++ [CallGet sid])).

Definition storage_set (sid : string) (data : jsval) (expires : Z) : M (World S) unit :=
  modify (fun w =>
    mkWorld (clock w) (set (clock w) sid data expires (backend w))
            (calls w ++ [CallSet sid data expires])).

Definition storage_delete (sid : string) : M (World S) unit :=
  modify (fun w =>
    mkWorld (clock w) (delete (clock w) sid (backend w))
            (calls w ++ [CallDelete sid])).

Definition init (this : SessionImpl) : M (World S) SessionImpl :=
  let* data := storage_get (_id this) in
  ret (with_store this data).

Definition update (store : update_arg) (this : SessionImpl) : M (World S) SessionImpl :=
  if negb (String.eqb (typeof_arg store) "object")
     && negb (String.eqb (typeof_arg store) "function")
  then throw (Error "store must be a valid object or a function")
  else
    let nextStore :=
      match store with
      | UFun f => f (_store this)
      | UVal v => v
      end in
    (* save the new store *)
    let* now := Date_now in
    let* _ := storage_set (_id this) nextStore
                (now + 1000 * default 1800 (maxAge (_options this))) in
    ret (with_store this nextStore).

Definition end_ (this : SessionImpl) : M (World S) SessionImpl :=
  let* _ := (if negb (truthy (_store this))
             then storage_delete (_id this)
             else ret tt) in
  ret (with_store this JUndefined).

(** [cookieHeader] of [helpers.ts]: name, value, cookie options and the
    expiry date in milliseconds. *)
Variable cookieHeader : string -> string -> option CookieOptions -> Z -> string.

Definition redirect (url : string) (this : SessionImpl) : M (World S) Response :=
  let* now := Date_now in
  let cookie :=
    cookieHeader
      (default "session" (match cookie (_options this) with
                          | Some c => name c
                          | None => None
                          end))
      (_id this)
      (cookie (_options this))
      (match _store this with
       | JUndefined => 0
       | _ => now + 1000 * default 1800 (maxAge (_options this))
       end) in
  ret (mkResponse 302 [("Set-Cookie", cookie); ("Location", url)] (BodyText "")).

End SessionImpl.

End Session.

(** ** The renderer *)

(** What [renderer.ts] takes from the JavaScript runtime and from modules of
    the framework that are not part of this development: [JSON.stringify],
    [Response.prototype.json], the conversion of a number to a string,
    [util.cleanPath], [util.appendUrlParams] and the value of
    [toLocalPath(getAlephPkgUri())]. *)
Class Externals : Type := {
  JSON_stringify : jsval -> string;
  Response_json : Response -> result jsval;
  Number_toString : Z -> string;
  cleanPath : string -> string;
  appendUrlParams : URL -> list (string * string) -> URL;
  alephPkgUri : string
}.

(** [s.startsWith(prefix)], [s.endsWith(suffix)] and [s.slice(n)]. *)
Definition startsWith (s pre : string) : bool := String.prefix pre s.

Definition endsWith (s suffix : string) : bool :=
  let n := String.length s in
  let k := String.length suffix in
  (k <=? n)%nat && String.eqb (String.substring (n - k) k s) suffix.

Definition slice (n : nat) (s : string) : string :=
  String.substring n (String.length s - n) s.

(** [s.includes(needle)]. *)
Fixpoint includes (s needle : string) : bool :=
  String.prefix needle s
  || match s with
     | EmptyString => false
     | String _ rest => includes rest needle
     end.

(** The markup inserted by handlers anywhere in a document, in order. *)
Fixpoint raw_fragments (n : node) : list string :=
  match n with
  | Text _ => []
  | Raw html => [html]
  | Element _ _ children => flat_map raw_fragments children
  end.

(** A recognizer for a script element of JSON content type with the given
    content: the markup starts a script element, carries the content type
    and ends with the content and the end tag. *)
Definition json_script_with (content html : string) : bool :=
  startsWith html "<script"
  && includes html (" type=" +:+ quoted "application/json")
  && endsWith html (">" +:+ content +:+ "</script>").

(** [message.split("\n")[0]]. *)
Fixpoint first_line (message : string) : string :=
  match message with
  | EmptyString => EmptyString
  | String c rest =>
      if Ascii.eqb c (Ascii.ascii_of_nat 10) then EmptyString
      else String c (first_line rest)
  end.

Module Renderer.

(** *** Routes ([types.ts]) *)

Record URLPatternInput : Type := mkInput {
  input_host : option string;
  input_pathname : string
}.

Record URLPatternComponentResult : Type := mkComponent {
  input : string;
  groups : list (string * string)
}.

Record URLPatternResult : Type := mkPatternResult {
  result_host : URLPatternComponentResult;
  result_pathname : URLPatternComponentResult
}.

(** [exec] answers [null] ([None]) when the pattern does not match. *)
Record IURLPattern : Type := mkPattern {
  exec : URLPatternInput -> option URLPatternResult
}.

Record RawURLPattern : Type := mkRawPattern {
  raw_host : option string;
  raw_pathname : string
}.

Record RouteMeta : Type := mkMeta {
  meta_filename : string;
  meta_pattern : RawURLPattern
}.

(** What a data fetcher hands back: a [Response] or another value, either
    directly or through a promise; calling it can also throw. *)
Inductive retval : Type :=
| Resp (r : Response)
| Plain (v : jsval).

Inductive returned : Type :=
| Value (v : retval)
| Promise (p : result retval).

(** A property of the data configuration: a function ([typeof] gives
    ["function"]) or any other value, [undefined] when it is missing. *)
Inductive property (F : Type) : Type :=
| Function (f : F)
| NotFunction (v : jsval).
Arguments Function {F} f.
Arguments NotFunction {F} v.

Record DataConfig : Type := mkDataConfig {
  get : property (Request -> jsval -> result returned);
  all : property (Request -> result returned);
  cacheTtl : jsval
}.

(** The object [{}]. *)
Definition empty_config : DataConfig :=
  mkDataConfig (NotFunction JUndefined) (NotFunction JUndefined) JUndefined.

(** The export [data] of a route module: a plain object, for which
    [util.isPlainObject] holds, or anything else. *)
Inductive module_data : Type :=
| PlainObject (config : DataConfig)
| NotPlainObject (v : jsval).

Record RouteModule : Type := mkModule {
  mod_default : jsval;
  mod_data : module_data
}.

(** A route: pattern, module loader and meta data. The loader's promise is
    fulfilled with the module or rejected. *)
Definition Route : Type := IURLPattern * (unit -> result RouteModule) * RouteMeta.

(** The object [matchRoute] builds. *)
Record RenderContext : Type := mkContext {
  url : URL;
  moduleDefaultExport : jsval;
  filename : option string;
  data : option jsval;
  dataExpires : jsval
}.

Inductive matched : Type :=
| IsResponse (r : Response)
| IsRoute (route : RenderContext).

(** The object [{ url }]. *)
Definition only_url (url : URL) : RenderContext :=
  mkContext url JUndefined None None JUndefined.

(** *** The world of a request *)

Inductive event : Type :=
| InitWasm
| CallLoad (meta : RouteMeta)
| CallAll (request : Request)
| AwaitAll
| CallGet (request : Request) (ctx : jsval)
| AwaitGet
| ReadJson (response : Response)
| CallSsrHandler (route : RenderContext)
| Lstat
| LogError (err : thrown).

(** The module variable [lolHtmlReady], what the promise of
    [initWasm(decodeWasm())] settles to, what [Deno.lstat("./index.html")]
    answers (the modification time as a UTC string, if any), and the log of
    the calls made so far. *)
Record World : Type := mkWorld {
  lolHtmlReady : bool;
  wasm : result unit;
  index_mtime : result (option string);
  log : list event
}.

(** The world with more events in its log. *)
Definition logged (events : list event) (w : World) : World :=
  mkWorld (lolHtmlReady w) (wasm w) (index_mtime w) (log w ++ events).

Definition emit (e : event) : M World unit := modify (logged [e]).

Definition lift {A} (r : result A) : M World A := fun w => (r, w).

(** [if (res instanceof Promise) res = await res]. *)
Definition await (e : event) (res : returned) : M World retval :=
  match res with
  | Promise p => let* _ := emit e in lift p
  | Value v => ret v
  end.

(** What a call of a fetcher comes to once it is awaited, and the [await]
    it takes. *)
Definition settled (res : result returned) : result retval :=
  match res with
  | Ok (Value v) => Ok v
  | Ok (Promise p) => p
  | Throw e => Throw e
  end.

Definition awaits (e : event) (res : result returned) : list event :=
  match res with
  | Ok (Promise _) => [e]
  | _ => []
  end.

(** [for (const x of l) body]: the body answers [Some v] when it executes
    [return v] and [None] when it reaches its end. *)
Fixpoint for_of {A R} (l : list A) (body : A -> M World (option R)) : M World (option R) :=
  match l with
  | [] => ret None
  | x :: rest =>
      let* r := body x in
      match r with
      | Some v => ret (Some v)
      | None => for_of rest body
      end
  end.

(** *** The HTML rewriter *)

(** Modelled from the spec: the [HTMLRewriter] of lol_html, a library whose
    code is not part of this development. The specification describes it as
    element level insertion and replacement driven by handlers keyed by
    selector, in document order; the order of repeated insertions is that of
    the library's documentation. An [El] is the element a handler is given,
    with the mutations recorded on it so far. Every insertion of
    [renderer.ts] passes [{ html: true }], so inserted content is [Raw]. The
    content of an element that is removed or replaced is not emitted, but
    the handlers are invoked on the elements in it as on any other, in
    document order, and so change the flags. *)
Record El : Type := mkEl {
  el_tagName : string;
  el_attributes : list (string * string);
  el_before : list node;
  el_after : list node;
  el_appended : list node;
  el_replacement : option (list node);
  el_removed : bool
}.

Definition new_El (tagName : string) (attrs : list (string * string)) : El :=
  mkEl tagName attrs [] [] [] None false.

Definition getAttribute (name : string) (el : El) : option string :=
  headers_get name (el_attributes el).

Fixpoint set_attr (name value : string) (attrs : list (string * string))
  : list (string * string) :=
  match attrs with
  | [] => [(name, value)]
  | (k, v) :: rest =>
      if String.eqb k name then (k, value) :: rest
      else (k, v) :: set_attr name value rest
  end.

Definition setAttribute (name value : string) (el : El) : El :=
  mkEl (el_tagName el) (set_attr name value (el_attributes el)) (el_before el)
       (el_after el) (el_appended el) (el_replacement el) (el_removed el).

(** [el.before(content, { html: true })]: later calls insert after the
    content of earlier ones. *)
Definition before (content : string) (el : El) : El :=
  mkEl (el_tagName el) (el_attributes el) (el_before el ++ [Raw content])
       (el_after el) (el_appended el) (el_replacement el) (el_removed el).

(** [el.after(content, { html: true })]: later calls insert before the
    content of earlier ones. *)
Definition after (content : string) (el : El) : El :=
  mkEl (el_tagName el) (el_attributes el) (el_before el)
       (Raw content :: el_after el) (el_appended el) (el_replacement el) (el_removed el).

(** [el.append(content, { html: true })]: before the end tag. *)
Definition append (content : string) (el : El) : El :=
  mkEl (el_tagName el) (el_attributes el) (el_before el)
       (el_after el) (el_appended el ++ [Raw content]) (el_replacement el) (el_removed el).

(** [el.replace(content, { html: true })]. *)
Definition replace (content : string) (el : El) : El :=
  mkEl (el_tagName el) (el_attributes el) (el_before el)
       (el_after el) (el_appended el) (Some [Raw content]) (el_removed el).

(** [el.remove()]. *)
Definition remove (el : El) : El :=
  mkEl (el_tagName el) (el_attributes el) (el_before el)
       (el_after el) (el_appended el) (el_replacement el) true.

(** The flags [scriptHandler.nomoduleInserted] and [commonHandler.handled]
    of one call of [fetch]. *)
Record RewriteState : Type := mkState {
  nomoduleInserted : bool;
  handled : bool
}.

Definition handler : Type := El -> RewriteState -> El * RewriteState.

(** The handlers registered with [rewriter.on(selector, handler)], in the
    order of registration; a selector here is a tag name. *)
Definition run_handlers (handlers : list (string * handler)) (el : El) (st : RewriteState)
  : El * RewriteState :=
  fold_left
    (fun acc '(selector, h) =>
       if String.eqb selector (el_tagName (fst acc)) then h (fst acc) (snd acc) else acc)
    handlers (el, st).

(** An element that was removed or replaced loses its content. *)
Definition dropped (el : El) : bool :=
  el_removed el || match el_replacement el with Some _ => true | None => false end.

(** What the rewriter emits for an element once its handlers ran. *)
Definition emitted (el : El) (children : list node) : list node :=
  el_before el
  ++ match el_replacement el with
     | Some content => content
     | None =>
         if el_removed el then []
         else [Element (el_tagName el) (el_attributes el) (children ++ el_appended el)]
     end
  ++ el_after el.

Fixpoint rewrite_node (handlers : list (string * handler)) (n : node) (st : RewriteState)
  : list node * RewriteState :=
  match n with
  | Text s => ([Text s], st)
  | Raw html => ([Raw html], st)
  | Element tagName attrs children =>
      let '(el, st1) := run_handlers handlers (new_El tagName attrs) st in
      let '(children', st2) :=
        (fix rewrite_children (l : list node) (st : RewriteState) : list node * RewriteState :=
           match l with
           | [] => ([], st)
           | c :: rest =>
               let '(out1, st1) := rewrite_node handlers c st in
               let '(out2, st2) := rewrite_children rest st1 in
               (out1 ++ out2, st2)
           end) children st1 in
      (emitted el children', st2)
  end.

(** [rewriter.write(document); rewriter.end()]: the nodes of the document
    in order. *)
Definition rewrite_nodes (handlers : list (string * handler))
  : list node -> RewriteState -> list node * RewriteState :=
  fix rewrite_children (l : list node) (st : RewriteState) : list node * RewriteState :=
    match l with
    | [] => ([], st)
    | c :: rest =>
        let '(out1, st1) := rewrite_node handlers c st in
        let '(out2, st2) := rewrite_children rest st1 in
        (out1 ++ out2, st2)
    end.

(** *** Positions in a document *)

(** A document with a hole: the nodes to the left and to the right of the
    hole, under the elements that enclose it. *)
Inductive context : Type :=
| Hole (left right : list node)
| Under (left : list node) (tagName : string) (attrs : list (string * string))
        (inner : context) (right : list node).

Fixpoint plug (c : context) (filling : list node) : list node :=
  match c with
  | Hole l r => l ++ filling ++ r
  | Under l t a inner r => l ++ Element t a (plug inner filling) :: r
  end.

(** The tag names of the elements that enclose the hole. *)
Fixpoint ancestors (c : context) : list string :=
  match c with
  | Hole _ _ => []
  | Under _ t _ inner _ => t :: ancestors inner
  end.

(** More nodes at the right end of the level of the hole's outermost
    ancestor. *)
Definition extend (c : context) (more : list node) : context :=
  match c with
  | Hole l r => Hole l (r ++ more)
  | Under l t a inner r => Under l t a inner (r ++ more)
  end.

(** The rewriting of what surrounds the hole, when [inside] is what the
    rewriting of what fills the hole does to the flags: the nodes to the
    left, the enclosing elements and the nodes to the right, in document
    order. *)
Fixpoint rewrite_context (handlers : list (string * handler)) (c : context)
    (inside : RewriteState -> RewriteState) (st : RewriteState)
  : context * RewriteState :=
  match c with
  | Hole l r =>
      let '(l', st1) := rewrite_nodes handlers l st in
      let '(r', st2) := rewrite_nodes handlers r (inside st1) in
      (Hole l' r', st2)
  | Under l t a inner r =>
      let '(l', st1) := rewrite_nodes handlers l st in
      let '(el, st2) := run_handlers handlers (new_El t a) st1 in
      let '(inner', st3) := rewrite_context handlers inner inside st2 in
      let '(r', st4) := rewrite_nodes handlers r st3 in
      (Under (l' ++ el_before el) (el_tagName el) (el_attributes el)
             (extend inner' (el_appended el)) (el_after el ++ r'),
       st4)
  end.

(** The handlers leave the elements with tag name [t] in the document. *)
Definition keeps (handlers : list (string * handler)) (t : string) : Prop :=
  forall attrs st, dropped (fst (run_handlers handlers (new_El t attrs) st)) = false.

(** No element that encloses the hole is itself a marker. *)
Definition unmarked (c : context) : Prop :=
  Forall (fun t => t <> "ssr-head" /\ t <> "ssr-body") (ancestors c).

(** *** [fetch] *)

(** [RenderOptions]. The base document is given as the tree the rewriter
    parses it into. The SSR callback receives the route and the array
    [headCollection] (empty at the call) and answers its output together
    with the content of the array after the call, or throws. *)
Record RenderOptions : Type := mkRenderOptions {
  indexHtml : list node;
  routes : list Route;
  isDev : bool;
  ssrHandler : option (RenderContext -> list string -> result (jsval * list string))
}.

(** A [return] inside the [try] block, or the block going on. *)
Inductive step (A : Type) : Type :=
| Continue (a : A)
| Return (r : Response).
Arguments Continue {A} a.
Arguments Return {A} r.

Definition try_catch {A} (block : M World A) (catch : thrown -> M World A) : M World A :=
  fun w =>
    match block w with
    | (Ok a, w') => (Ok a, w')
    | (Throw err, w') => catch err w'
    end.

(** A route's meta data as the value given to [JSON.stringify]. *)
Definition meta_to_js (meta : RouteMeta) : jsval :=
  JObj [("filename", JStr (meta_filename meta));
        ("pattern",
         JObj (match raw_host (meta_pattern meta) with
               | Some h => [("host", JStr h)]
               | None => []
               end ++ [("pathname", JStr (raw_pathname (meta_pattern meta)))]))].

Section Renderer.
Context `{Externals}.

(** *** [matchRoute] *)

(** One iteration of the loop of [matchRoute], up to its [return route]:
    [IsResponse res] when the block of [if (ret)] executes [return res],
    [IsRoute route] with the route as it is when [return route] is reached. *)
Definition iteration (req : Request) (ctx : jsval) (url : URL) (pathname : string)
  : Route -> M World matched :=
  fun '(pattern, load, meta) =>
    let route := only_url url in
    let ret_ := exec pattern (mkInput None pathname) in
    match ret_ with
    | Some ret_ =>
        let* module_ := (let* _ := emit (CallLoad meta) in lift (load tt)) in
        let dataConfig :=
          match mod_data module_ with
          | PlainObject config => config
          | NotPlainObject _ => empty_config
          end in
        let route :=
          mkContext (appendUrlParams url (groups (result_pathname ret_)))
                    (mod_default module_)
                    (Some (meta_filename meta))
                    (data route)
                    (cacheTtl dataConfig) in
        match get dataConfig with
        | Function fetcher =>
            let request := new_Request (Renderer.url route) req in
            let* short :=
              match all dataConfig with
              | Function allFetcher =>
                  let* res := (let* _ := emit (CallAll request) in lift (allFetcher request)) in
                  let* res := await AwaitAll res in
                  match res with
                  | Resp res => ret (Some res)
                  | Plain _ => ret None
                  end
              | NotFunction _ => ret None
              end in
            match short with
            | Some res => ret (IsResponse res)
            | None =>
                let* res := (let* _ := emit (CallGet request ctx) in lift (fetcher request ctx)) in
                let* res := await AwaitGet res in
                match res with
                | Resp res =>
                    if negb (resp_status res =? 200) then ret (IsResponse res)
                    else
                      let* json := (let* _ := emit (ReadJson res) in lift (Response_json res)) in
                      ret (IsRoute (mkContext (Renderer.url route) (moduleDefaultExport route)
                                              (filename route) (Some json) (dataExpires route)))
                | Plain _ => ret (IsRoute route)
                end
            end
        | NotFunction _ => ret (IsRoute route)
        end
    | None => ret (IsRoute route)
    end.

Definition matchRoute (req : Request) (ctx : jsval) (routes : list Route) : M World matched :=
  let url := req_url req in
  let* returned :=
    if (0 <? length routes)%nat then
      let pathname := cleanPath (pathname url) in
      for_of routes (fun r =>
        let* route := iteration req ctx url pathname r in
        (* [return route] *)
        ret (Some route))
    else ret None in
  match returned with
  | Some r => ret r
  | None => ret (IsRoute (only_url url))
  end.

(** The per-request function [get] of the route [matchRoute] examines is
    called and comes to [outcome]: the table starts with a route whose
    pattern matches the normalized pathname and whose module loads with a
    plain data configuration that has a function [get]; the collective
    function [all], if there is one, came to a value that is no [Response];
    and [get], called with the derived request and the context, comes to
    [outcome]. *)
Definition get_comes_to (req : Request) (ctx : jsval) (routes : list Route)
    (outcome : result retval) : Prop :=
  exists pattern load meta rest ret_ module_ config fetcher,
    routes = (pattern, load, meta) :: rest
    /\ exec pattern (mkInput None (cleanPath (pathname (req_url req)))) = Some ret_
    /\ load tt = Ok module_
    /\ mod_data module_ = PlainObject config
    /\ get config = Function fetcher
    /\ match all config with
       | Function allFetcher =>
           exists v,
             settled (allFetcher
                        (new_Request (appendUrlParams (req_url req)
                                        (groups (result_pathname ret_))) req))
             = Ok (Plain v)
       | NotFunction _ => True
       end
    /\ settled (fetcher
                  (new_Request (appendUrlParams (req_url req)
                                  (groups (result_pathname ret_))) req) ctx)
       = outcome.

(** *** The handlers of [fetch] *)

(** The two script elements the handler of [ssr-head] inserts. *)
Definition data_script (expiresAttr json : string) : string :=
  "<script id=" +:+ quoted "aleph-ssr-data"
  +:+ " type=" +:+ quoted "application/json" +:+ expiresAttr +:+ ">"
  +:+ json +:+ "</script>".

Definition module_script (specifier : string) : string :=
  "<script type=" +:+ quoted "module" +:+ ">import e from "
  +:+ specifier +:+ ";window.__ssrModuleDefaultExport=e;</script>".

(** The fragment the handler of [ssr-head] inserts for the data payload. *)
Definition embedded (route : RenderContext) : list node :=
  match data route with
  | Some d =>
      if truthy d then
        [Raw (data_script (if truthy (dataExpires route)
                           then " data-expires=" +:+ quoted "route.dataExpires"
                           else "")
                          (JSON_stringify d))]
      else []
  | None => []
  end.

(** What the handler of [ssr-head] inserts for the module of the route. *)
Definition hydration (route : RenderContext) : list node :=
  match filename route with
  | Some f =>
      if String.eqb f "" then []
      else [Raw (module_script (JSON_stringify (JStr f)))]
  | None => []
  end.

Definition ssrHeadHandler (route : RenderContext) (headCollection : list string) : handler :=
  fun el st =>
    let el := fold_left (fun el tag => before tag el) headCollection el in
    let el :=
      match data route with
      | Some d =>
          if truthy d then
            let expiresAttr :=
              if truthy (dataExpires route)
              then " data-expires=" +:+ quoted "route.dataExpires"
              else "" in
            before (data_script expiresAttr (JSON_stringify d)) el
          else el
      | None => el
      end in
    let el :=
      match filename route with
      | Some f =>
          if negb (String.eqb f "") then
            before (module_script (JSON_stringify (JStr f))) el
          else el
      | None => el
      end in
    (remove el, st).

Definition ssrBodyHandler (ssrOutput : string) : handler :=
  fun el st => (replace ssrOutput el, st).

Definition linkHandler (isDev : bool) : handler :=
  fun el st =>
    match getAttribute "href" el with
    | Some href =>
        if negb (String.eqb href "") then
          let href := if startsWith href "./" then slice 1 href else href in
          let el := setAttribute "href" href el in
          let el :=
            if endsWith href ".css" && startsWith href "/" && isDev then
              after ("<script type=" +:+ quoted "module" +:+ ">import hot from "
                     +:+ quoted (alephPkgUri +:+ "framework/core/hmr.ts")
                     +:+ ";hot(" +:+ JSON_stringify (JStr ("." +:+ href))
                     +:+ ").accept();</script>") el
            else el in
          (el, st)
        else (el, st)
    | None => (el, st)
    end.

Definition scriptHandler : handler :=
  fun el st =>
    let src := getAttribute "src" el in
    let type := getAttribute "type" el in
    let '(el, st) :=
      if match type with Some t => String.eqb t "module" | None => false end
         && negb (nomoduleInserted st)
      then (after ("<script nomodule src="
                   +:+ quoted (alephPkgUri +:+ "lib/nomodule.js") +:+ "></script>") el,
            mkState true (handled st))
      else (el, st) in
    match src with
    | Some src =>
        if startsWith src "./" then (setAttribute "src" (slice 1 src) el, st) else (el, st)
    | None => (el, st)
    end.

Definition commonHandler (routes : list Route) (isDev : bool) : handler :=
  fun el st =>
    if handled st then (el, st)
    else
      let st := mkState (nomoduleInserted st) true in
      let el :=
        if (0 <? length routes)%nat then
          let config := JArr (map (fun r : Route => meta_to_js (snd r)) routes) in
          append ("<script id=" +:+ quoted "aleph-routes"
                  +:+ " type=" +:+ quoted "application/json" +:+ ">"
                  +:+ JSON_stringify config +:+ "</script>") el
        else el in
      let el :=
        if isDev then
          append ("<script type=" +:+ quoted "module" +:+ ">import hot from "
                  +:+ quoted (alephPkgUri +:+ "framework/core/hmr.ts")
                  +:+ ";hot(" +:+ quoted "./index.html" +:+ ").decline();</script>") el
        else el in
      (el, st).

(** [if (!lolHtmlReady) { await initWasm(decodeWasm()); lolHtmlReady = true }]
    is two steps with the [await] between them, where other calls of
    [fetch] can run. The first step tests the flag and, when it is not set,
    calls [initWasm]; it answers whether it did. *)
Definition start_init : M World bool :=
  let* ready := gets lolHtmlReady in
  if negb ready then
    let* _ := emit InitWasm in
    ret true
  else ret false.

(** The second step runs when the promise has settled: a rejection is
    thrown, and leaves the flag as it is; after a fulfilment the flag is
    set. *)
Definition finish_init : M World unit :=
  let* _ := (fun w => (wasm w, w)) in
  modify (fun w => mkWorld true (wasm w) (index_mtime w) (log w)).

(** The block in a call of [fetch] that no other call comes between. *)
Definition init_lol_html : M World unit :=
  let* started := start_init in
  if started then finish_init else ret tt.

(** What a call of [fetch] in the world [w] comes to, when [outcome] is what
    it comes to once the engine is ready: [outcome] when the engine is ready
    in [w] or its initialisation is fulfilled, and otherwise the rejection
    of the initialisation, which is outside of [try]. *)
Definition once_ready {A} (w : World) (outcome : result A * World) : result A * World :=
  match init_lol_html w with
  | (Ok _, _) => outcome
  | (Throw err, w') => (Throw err, w')
  end.

(** *** The block of [catch] *)

(** [v.name] for a value that is neither [null] nor [undefined], for the
    names [stack] and [message]: the field of an object, [undefined] for
    any other value. *)
Fixpoint field (name : string) (fields : list (string * jsval)) : jsval :=
  match fields with
  | [] => JUndefined
  | (k, v) :: rest => if String.eqb k name then v else field name rest
  end.

Definition member (name : string) (v : jsval) : jsval :=
  match v with
  | JObj fields => field name fields
  | _ => JUndefined
  end.

(** [log.error(err.stack)]: reading [stack] of [null] or [undefined]
    throws. *)
Definition log_error_stack (err : thrown) : M World unit :=
  match err with
  | Thrown JUndefined =>
      throw (TypeError "Cannot read properties of undefined (reading 'stack')")
  | Thrown JNull =>
      throw (TypeError "Cannot read properties of null (reading 'stack')")
  | _ => emit (LogError err)
  end.

(** [err.message.split("\n")[0]]: it throws when [message] is no string. *)
Definition message_first_line (err : thrown) : result string :=
  match err with
  | Error message => Ok (first_line message)
  | Thrown v =>
      match member "message" v with
      | JStr message => Ok (first_line message)
      | JUndefined =>
          Throw (TypeError "Cannot read properties of undefined (reading 'split')")
      | JNull =>
          Throw (TypeError "Cannot read properties of null (reading 'split')")
      | _ => Throw (TypeError "err.message.split is not a function")
      end
  end.

Definition catch_block (options : RenderOptions) (err : thrown) : M World Response :=
  let* _ := log_error_stack err in
  let* text :=
    if isDev options then lift (message_first_line err)
    else ret "Internal Server Error" in
  ret (mkResponse 500 [] (BodyText text)).

(** The handlers registered on the SSR path, and those registered on every
    path, in the order of registration. *)
Definition ssr_handlers (route : RenderContext) (headCollection : list string)
    (ssrOutput : string) : list (string * handler) :=
  [("ssr-head", ssrHeadHandler route headCollection);
   ("ssr-body", ssrBodyHandler ssrOutput)].

Definition base_handlers (options : RenderOptions) : list (string * handler) :=
  [("link", linkHandler (isDev options));
   ("script", scriptHandler);
   ("head", commonHandler (routes options) (isDev options));
   ("body", commonHandler (routes options) (isDev options))].

(** The block of [try]. *)
Definition try_block (req : Request) (ctx : jsval) (options : RenderOptions)
  : M World Response :=
  let headers := [("Content-Type", "text/html; charset=utf-8")] in
    (let* ssr :=
       match ssrHandler options with
       | Some ssrHandler =>
           (* get route *)
           let* route := matchRoute req ctx (routes options) in
           match route with
           | IsResponse route => ret (Return route)
           | IsRoute route =>
               (* ssr *)
               let* (ssrOutput, headCollection) :=
                 (let* _ := emit (CallSsrHandler route) in lift (ssrHandler route [])) in
               match ssrOutput with
               | JStr ssrOutput =>
                   ret (Continue
                     (true,
                      ssr_handlers route headCollection ssrOutput,
                      headers ++
                      [("Cache-Control",
                        match dataExpires route with
                        | JNum n => "public, max-age=" +:+ Number_toString n
                        | _ => "public, max-age=0, must-revalidate"
                        end)]))
               | _ => ret (Continue (false, [], headers))
               end
           end
       | None => ret (Continue (false, [], headers))
       end in
     match ssr with
     | Return r => ret r
     | Continue (withSSR, ssrHandlers, headers) =>
         let* static :=
           if negb withSSR then
             let* mtime := (let* _ := emit Lstat in fun w => (index_mtime w, w)) in
             let* modified :=
               match mtime with
               | Some mtimeUTC =>
                   if match headers_get "If-Modified-Since" (req_headers req) with
                      | Some since => String.eqb since mtimeUTC
                      | None => false
                      end
                   then ret (Return (mkResponse 304 [] BodyNull))
                   else ret (Continue (headers ++ [("Last-Modified", mtimeUTC)]))
               | None => ret (Continue headers)
               end in
             match modified with
             | Return r => ret (Return r)
             | Continue headers =>
                 ret (Continue
                        (headers ++ [("Cache-Control", "public, max-age=0, must-revalidate")]))
             end
           else ret (Continue headers) in
         match static with
         | Return r => ret r
         | Continue headers =>
             let handlers := ssrHandlers ++ base_handlers options in
             let chunks := fst (rewrite_nodes handlers (indexHtml options) (mkState false false)) in
             ret (mkResponse 200 headers (BodyDocument chunks))
         end
     end).

(** One call of [fetch] that no other call comes between. *)
Definition fetch (req : Request) (ctx : jsval) (options : RenderOptions) : M World Response :=
  let* _ := init_lol_html in
  try_catch (try_block req ctx options) (catch_block options).

End Renderer.

End Renderer.

(** ** A concrete runtime

    An instance of [Externals] to run the renderer on concrete requests:
    a serializer and a reader for JSON texts whose strings need no escapes
    and whose numbers are integers, decimal numbers, and URL helpers. *)

Module Runtime.

Definition decimal (n : Z) : string :=
  DecimalString.NilZero.string_of_int (Z.to_int n).

Fixpoint stringify (v : jsval) : string :=
  match v with
  | JUndefined => "undefined"
  | JNull => "null"
  | JBool b => if b then "true" else "false"
  | JNum n => decimal n
  | JStr s => quoted s
  | JArr items =>
      "[" +:+ (fix elements (l : list jsval) : string :=
                 match l with
                 | [] => ""
                 | x :: rest =>
                     stringify x +:+ match rest with [] => "" | _ => "," +:+ elements rest end
                 end) items +:+ "]"
  | JObj fields =>
      "{" +:+ (fix members (l : list (string * jsval)) : string :=
                 match l with
                 | [] => ""
                 | (k, x) :: rest =>
                     quoted k +:+ ":" +:+ stringify x
                     +:+ match rest with [] => "" | _ => "," +:+ members rest end
                 end) fields +:+ "}"
  end.

(** A reader for JSON texts without escapes in strings and without
    fractions or exponents in numbers. Each function answers the value read
    and the rest of the text. *)
Fixpoint skip_space (s : string) : string :=
  match s with
  | String c rest =>
      if Ascii.eqb c (Ascii.ascii_of_nat 32) || Ascii.eqb c (Ascii.ascii_of_nat 10)
      then skip_space rest else s
  | EmptyString => s
  end.

(** The characters up to the closing double quote. *)
Fixpoint read_string (s : string) : option (string * string) :=
  match s with
  | EmptyString => None
  | String c rest =>
      if Ascii.eqb c (Ascii.ascii_of_nat 34) then Some (EmptyString, rest)
      else match read_string rest with
           | Some (text, rest') => Some (String c text, rest')
           | None => None
           end
  end.

(** The value of the decimal digits at the start of a text. *)
Fixpoint read_digits (s : string) (acc : Z) (seen : bool) : option (Z * string) :=
  match s with
  | String c rest =>
      let d := Z.of_nat (Ascii.nat_of_ascii c) - 48 in
      if (0 <=? d) && (d <=? 9) then read_digits rest (10 * acc + d) true
      else if seen then Some (acc, s) else None
  | EmptyString => if seen then Some (acc, s) else None
  end.

Fixpoint read_value (fuel : nat) (s : string) : option (jsval * string) :=
  match fuel with
  | O => None
  | S fuel =>
      let s := skip_space s in
      if startsWith s "null" then Some (JNull, slice 4 s)
      else if startsWith s "true" then Some (JBool true, slice 4 s)
      else if startsWith s "false" then Some (JBool false, slice 5 s)
      else if startsWith s dq then
        match read_string (slice 1 s) with
        | Some (text, rest) => Some (JStr text, rest)
        | None => None
        end
      else if startsWith s "[" then
        if startsWith (skip_space (slice 1 s)) "]"
        then Some (JArr [], slice 1 (skip_space (slice 1 s)))
        else match read_elements fuel (slice 1 s) with
             | Some (items, rest) => Some (JArr items, rest)
             | None => None
             end
      else if startsWith s "{" then
        if startsWith (skip_space (slice 1 s)) "}"
        then Some (JObj [], slice 1 (skip_space (slice 1 s)))
        else match read_members fuel (slice 1 s) with
             | Some (fields, rest) => Some (JObj fields, rest)
             | None => None
             end
      else if startsWith s "-" then
        match read_digits (slice 1 s) 0 false with
        | Some (n, rest) => Some (JNum (- n), rest)
        | None => None
        end
      else
        match read_digits s 0 false with
        | Some (n, rest) => Some (JNum n, rest)
        | None => None
        end
  end
with read_elements (fuel : nat) (s : string) : option (list jsval * string) :=
  match fuel with
  | O => None
  | S fuel =>
      match read_value fuel s with
      | Some (x, rest) =>
          let rest := skip_space rest in
          if startsWith rest "]" then Some ([x], slice 1 rest)
          else if startsWith rest "," then
            match read_elements fuel (slice 1 rest) with
            | Some (items, rest') => Some (x :: items, rest')
            | None => None
            end
          else None
      | None => None
      end
  end
with read_members (fuel : nat) (s : string) : option (list (string * jsval) * string) :=
  match fuel with
  | O => None
  | S fuel =>
      let s := skip_space s in
      if startsWith s dq then
        match read_string (slice 1 s) with
        | Some (key, rest) =>
            let rest := skip_space rest in
            if startsWith rest ":" then
              match read_value fuel (slice 1 rest) with
              | Some (x, rest) =>
                  let rest := skip_space rest in
                  if startsWith rest "}" then Some ([(key, x)], slice 1 rest)
                  else if startsWith rest "," then
                    match read_members fuel (slice 1 rest) with
                    | Some (fields, rest') => Some ((key, x) :: fields, rest')
                    | None => None
                    end
                  else None
              | None => None
              end
            else None
        | None => None
        end
      else None
  end.

(** [JSON.parse(text)]; a text of [n] characters needs no more than [n + 1]
    nested calls. *)
Definition parse (text : string) : result jsval :=
  match read_value (S (String.length text)) text with
  | Some (v, rest) =>
      match skip_space rest with
      | EmptyString => Ok v
      | _ => Throw (Error "SyntaxError: Unexpected token in JSON")
      end
  | None => Throw (Error "SyntaxError: Unexpected token in JSON")
  end.

Definition json (r : Response) : result jsval :=
  match resp_body r with
  | BodyText text => parse text
  | _ => Throw (Error "SyntaxError: Unexpected end of JSON input")
  end.

(** Modelled from the spec: [util.cleanPath] of [lib/util.ts], which is not
    part of this development; it collapses redundant separators and strips
    the trailing slash except for the root. *)
Fixpoint cleanPath_from (s : string) (slash : bool) : string :=
  match s with
  | EmptyString => EmptyString
  | String c rest =>
      if Ascii.eqb c (Ascii.ascii_of_nat 47)
      then cleanPath_from rest true
      else (if slash then "/" else "") +:+ String c (cleanPath_from rest false)
  end.

Definition cleanPath (s : string) : string :=
  match cleanPath_from s true with
  | EmptyString => "/"
  | p => p
  end.

(** Modelled from the spec: [util.appendUrlParams] of [lib/util.ts], which is
    not part of this development; it merges the captured groups into the URL
    as query parameters. *)
Definition appendUrlParams (url : URL) (params : list (string * string)) : URL :=
  mkURL (origin url) (pathname url) (searchParams url ++ params).

#[export] Instance externals : Externals := {
  JSON_stringify := stringify;
  Response_json := json;
  Number_toString := decimal;
  cleanPath := cleanPath;
  appendUrlParams := appendUrlParams;
  alephPkgUri := "/-/deno.land/x/aleph/"
}.

(** A pattern for one literal pathname, and a pattern [prefix:name] that
    captures what follows the prefix. *)
Definition literal (path : string) : Renderer.IURLPattern :=
  Renderer.mkPattern (fun i =>
    if String.eqb (Renderer.input_pathname i) path
    then Some (Renderer.mkPatternResult
                 (Renderer.mkComponent "" [])
                 (Renderer.mkComponent (Renderer.input_pathname i) []))
    else None).

Definition capture (pre name : string) : Renderer.IURLPattern :=
  Renderer.mkPattern (fun i =>
    let p := Renderer.input_pathname i in
    if startsWith p pre && (String.length pre <? String.length p)%nat
    then Some (Renderer.mkPatternResult
                 (Renderer.mkComponent "" [])
                 (Renderer.mkComponent p [(name, slice (String.length pre) p)]))
    else None).

End Runtime.

(** ** A small application

    Two routes, [/about] and [/posts/:id], a request for [/posts/42], and
    some data configurations for the second route. *)

Module App.
Import Renderer Runtime.

Definition request : Request :=
  mkRequest (mkURL "http://localhost" "/posts/42" []) "GET" [].

(** The URL of [request] with the captured group as a query parameter. *)
Definition resolved : URL :=
  mkURL "http://localhost" "/posts/42" [("id", "42")].

Definition world : World := mkWorld true (Ok tt) (Ok None) [].

Definition about_meta : RouteMeta :=
  mkMeta "./routes/about.tsx" (mkRawPattern None "/about").

Definition post_meta : RouteMeta :=
  mkMeta "./routes/posts/[id].tsx" (mkRawPattern None "/posts/:id").

Definition about : Route :=
  (literal "/about",
   fun _ => Ok (mkModule (JStr "About") (NotPlainObject JUndefined)),
   about_meta).

Definition post (config : DataConfig) : Route :=
  (capture "/posts/" "id",
   fun _ => Ok (mkModule (JStr "Post") (PlainObject config)),
   post_meta).

Definition login : Response :=
  mkResponse 302 [("Location", "/login")] BodyNull.

Definition json_response (text : string) : Response :=
  mkResponse 200 [("Content-Type", "application/json")] (BodyText text).

(** Only a collective function [all], which redirects to the login page. *)
Definition guard_only : DataConfig :=
  mkDataConfig (NotFunction JUndefined)
               (Function (fun _ => Ok (Value (Resp login))))
               JUndefined.

(** [all] resolves to a redirection, [get] answers a JSON text. *)
Definition guarded (text : string) : DataConfig :=
  mkDataConfig (Function (fun _ _ => Ok (Value (Resp (json_response text)))))
               (Function (fun _ => Ok (Promise (Ok (Resp login)))))
               JUndefined.

(** [get] answers the given value, directly; [cacheTtl] as given. *)
Definition fetching (v : retval) (cacheTtl : jsval) : DataConfig :=
  mkDataConfig (Function (fun _ _ => Ok (Value v))) (NotFunction JUndefined) cacheTtl.

Definition indexHtml : list node :=
  [Element "html" []
     [Element "head" [] [Element "title" [] [Text "App"]; Element "ssr-head" [] []];
      Element "body" [] [Element "ssr-body" [] []]]].

(** An SSR callback that answers fixed markup and pushes one head
    fragment. *)
Definition ssr (markup : string) : RenderContext -> list string -> result (jsval * list string) :=
  fun _ headCollection =>
    Ok (JStr markup, headCollection ++ ["<meta name=" +:+ quoted "x" +:+ ">"]).

Definition options (config : DataConfig) (markup : string) : RenderOptions :=
  mkRenderOptions indexHtml [post config; about] false (Some (ssr markup)).

(** The payload with the title [Hi] and its JSON text. *)
Definition hi : jsval := JObj [("title", JStr "Hi")].

Definition hi_text : string := "{" +:+ quoted "title" +:+ ":" +:+ quoted "Hi" +:+ "}".

(** An article whose loader answers the JSON text of [hi] and declares a
    cache expiry, and a counter whose loader answers the JSON text [0]. *)
Definition article (cacheTtl : jsval) : RenderOptions :=
  options (fetching (Resp (json_response hi_text)) cacheTtl) "<article>Hi</article>".

Definition counter : RenderOptions :=
  options (fetching (Resp (json_response "0")) JUndefined) "<p>0</p>".

(** The context [matchRoute] answers for [article] and [counter]. *)
Definition context_with (payload cacheTtl : jsval) : RenderContext :=
  mkContext resolved (JStr "Post") (Some "./routes/posts/[id].tsx") (Some payload) cacheTtl.

(** The world after [matchRoute] ran the loader answering [text]. *)
Definition fetched (text : string) : World :=
  logged [CallLoad post_meta; CallGet (new_Request resolved request) JNull;
          ReadJson (json_response text)] world.

(** Where the two markers of [indexHtml] are. *)
Definition at_ssr_head : context :=
  Under [] "html" []
        (Under [] "head" []
               (Hole [Element "title" [] [Text "App"]] [])
               [Element "body" [] [Element "ssr-body" [] []]])
        [].

Definition at_ssr_body : context :=
  Under [] "html" []
        (Under [Element "head" [] [Element "title" [] [Text "App"]; Element "ssr-head" [] []]]
               "body" [] (Hole [] []) [])
        [].

End App.

(** ** Markup inserted by the handlers *)

Module Markup.
Import Renderer.

(** How often the markup [html] was inserted in a document. *)
Definition occurrences (html : string) (document : list node) : nat :=
  count_occ string_dec (flat_map raw_fragments document) html.

(** The insertions in the content a handler recorded on an element that
    stays in the document. *)
Definition insertions (html : string) (el : El) : nat :=
  occurrences html (el_before el ++ el_appended el ++ el_after el).

(** The flags account for the insertions a handler made on an element:
    the element is dropped after the handler if it was before, and what
    [measure] reads from the flags grew by the number of insertions. *)
Definition accounted (html : string) (measure : RewriteState -> nat)
    (before_ after_ : El * RewriteState) : Prop :=
  dropped (fst after_) = dropped (fst before_)
  /\ (insertions html (fst after_) + measure (snd before_)
      = insertions html (fst before_) + measure (snd after_))%nat.

(** A document without the markup handlers inserted and without the values
    of attributes: the elements and texts with their tag names, attribute
    names and nesting. *)
Fixpoint skeleton (n : node) : list node :=
  match n with
  | Text s => [Text s]
  | Raw _ => []
  | Element t attrs children =>
      [Element t (map (fun kv => (fst kv, EmptyString)) attrs) (flat_map skeleton children)]
  end.

(** A handler left the element in place: it is dropped only if it was, has
    its tag name and attribute names, and what was inserted around it and
    in it is markup. *)
Definition in_place (before_ after_ : El * RewriteState) : Prop :=
  dropped (fst after_) = dropped (fst before_)
  /\ el_tagName (fst after_) = el_tagName (fst before_)
  /\ map fst (el_attributes (fst after_)) = map fst (el_attributes (fst before_))
  /\ flat_map skeleton (el_before (fst after_)) = flat_map skeleton (el_before (fst before_))
  /\ flat_map skeleton (el_appended (fst after_))
     = flat_map skeleton (el_appended (fst before_))
  /\ flat_map skeleton (el_after (fst after_)) = flat_map skeleton (el_after (fst before_)).

(** The script elements [scriptHandler] and [commonHandler] insert. *)
Definition nomodule_script `{Externals} : string :=
  "<script nomodule src=" +:+ quoted (alephPkgUri +:+ "lib/nomodule.js") +:+ "></script>".

Definition routes_script `{Externals} (routes : list Route) : string :=
  "<script id=" +:+ quoted "aleph-routes" +:+ " type=" +:+ quoted "application/json" +:+ ">"
  +:+ JSON_stringify (JArr (map (fun r : Route => meta_to_js (snd r)) routes))
  +:+ "</script>".

(** What the flags of a rewriting say about the two scripts: inserted or
    not. *)
Definition nomodule_count (st : RewriteState) : nat :=
  if nomoduleInserted st then 1%nat else 0%nat.

Definition routes_count (routes : list Route) (st : RewriteState) : nat :=
  if handled st && (0 <? length routes)%nat then 1%nat else 0%nat.

End Markup.

(** ** A site without server-side rendering, and one whose callback declines *)

Module Site.
Import Renderer Runtime App.

Definition mtime : string := "Mon, 02 Nov 2026 10:00:00 GMT".

Definition options : RenderOptions := mkRenderOptions indexHtml [about] false None.

(** The callback answers [null]. *)
Definition declining : RenderOptions :=
  mkRenderOptions indexHtml [about] false (Some (fun _ headCollection => Ok (JNull, headCollection))).

(** A request that carries [If-Modified-Since]. *)
Definition conditional (since : string) : Request :=
  mkRequest (mkURL "http://localhost" "/posts/42" []) "GET" [("If-Modified-Since", since)].

(** The engine is not ready; [./index.html] has the modification time
    [mtime], or cannot be read. *)
Definition world : World := mkWorld false (Ok tt) (Ok (Some mtime)) [].


(** The initialisation of the engine is rejected. *)
Definition broken : World :=
  mkWorld false (Throw (Error "WebAssembly.instantiate(): invalid module")) (Ok None) [].

(** A base document whose [ssr-body] marker is inside its [ssr-head]
    marker, the site of [article] with this document, and where the
    [ssr-body] marker is. *)
Definition enclosed : list node :=
  [Element "html" []
     [Element "head" [] [Element "ssr-head" [] [Element "ssr-body" [] []]];
      Element "body" [] []]].

Definition enclosing : RenderOptions :=
  mkRenderOptions enclosed
    [post (fetching (Resp (json_response hi_text)) JUndefined); about] false
    (Some (ssr "<article>Hi</article>")).

Definition at_enclosed_body : context :=
  Under [] "html" []
        (Under [] "head" [] (Under [] "ssr-head" [] (Hole [] []) []) [Element "body" [] []])
        [].

(** A marker that holds a module script. *)
Definition marker_with_script : node :=
  Element "ssr-head" [] [Element "script" [("type", "module")] []].

End Site.

(** * Properties of the session module *)

Section SessionFacts.
Import Session.

(** ** The default storage *)

Lemma memory_get_lookup (now : Z) (sid : string) (store : gmap string (jsval * Z)) :
  MemorySessionStorage.get now sid store =
    match store !! sid with
    | Some (data, expires) =>
        if (0 <? expires) && (expires <? now)
        then (JUndefined, base.delete sid store)
        else (data, store)
    | None => (JUndefined, store)
    end.
Proof.
  unfold MemorySessionStorage.get.
  destruct (store !! sid) as [[data expires]|]; reflexivity.
Qed.

(** A cache of the declared type, a payload object or [undefined], is falsy
    exactly when it is [undefined]. *)
Lemma typed_cache_empty (store : jsval) :
  store = JUndefined \/ is_object store = true ->
  truthy store = false <-> store = JUndefined.
Proof.
  intros [->|Hobj]; [easy|].
  destruct store; simpl in *; try discriminate; split; discriminate.
Qed.

(** An argument whose [typeof] is neither ["object"] nor ["function"] is
    rejected before the storage is called: the world and the session are as
    they were. *)
Lemma update_rejects {S} `{SessionStorage S}
    (store : update_arg) (this : SessionImpl) (w : World S) :
  typeof_arg store <> "object" ->
  typeof_arg store <> "function" ->
  update store this w = (Throw (Error "store must be a valid object or a function"), w).
Proof.
  intros Hobj Hfun. unfold update.
  apply String.eqb_neq in Hobj, Hfun. now rewrite Hobj, Hfun.
Qed.

(** What [update] does with an argument that passes the check. *)
Lemma update_accepts {S} `{SessionStorage S}
    (store : update_arg) (this : SessionImpl) (w : World S) :
  typeof_arg store = "object" \/ typeof_arg store = "function" ->
  let nextStore := match store with UFun f => f (_store this) | UVal v => v end in
  let expires := clock w + 1000 * default 1800 (maxAge (_options this)) in
  update store this w =
    (Ok (with_store this nextStore),
     mkWorld (clock w)
             (set (clock w) (_id this) nextStore expires (backend w))
             (calls w ++ [CallSet (_id this) nextStore expires])).
Proof.
  intros Hty. unfold update.
  assert (negb (String.eqb (typeof_arg store) "object")
          && negb (String.eqb (typeof_arg store) "function") = false) as ->.
  { destruct Hty as [-> | ->]; reflexivity. }
  reflexivity.
Qed.

(** C3. Session round trip: after [update(payload)] with an object payload
    on a session with id S over the default storage, the storage holds the
    record of [payload] for S; a new session object with the same id and
    storage, whatever its options, starts with an [undefined] cache, and
    after [init()] its cache is [payload], provided the clock at [init] has
    not passed the expiry [now + 1000 * maxAge] set by the update. The
    record is still there after [init()]. *)
Theorem update_then_init_round_trip
    (this : SessionImpl) (options' : SessionOptions) (payload : jsval)
    (w : World (gmap string (jsval * Z))) (later : Z) :
  typeof payload = "object" ->
  later <= clock w + 1000 * default 1800 (maxAge (_options this)) ->
  let expires := clock w + 1000 * default 1800 (maxAge (_options this)) in
  exists updated w1 session w2,
    update (UVal payload) this w = (Ok updated, w1)
    /\ _store updated = payload
    /\ backend w1 !! _id this = Some (payload, expires)
    /\ _store (new_SessionImpl (_id this) options') = JUndefined
    /\ init (new_SessionImpl (_id this) options') (at_time later w1) = (Ok session, w2)
    /\ session = mkSession (_id this) options' payload
    /\ _store session = payload
    /\ backend w2 !! _id this = Some (payload, expires).
Proof.
  intros Hty Hlater expires.
  assert (MemorySessionStorage.get later (_id this)
            (MemorySessionStorage.set (clock w) (_id this) payload expires (backend w))
          = (payload, MemorySessionStorage.set (clock w) (_id this) payload expires (backend w)))
    as Hget.
  { rewrite memory_get_lookup. unfold MemorySessionStorage.set.
    rewrite lookup_insert_eq.
    assert ((expires <? later) = false) as -> by (apply Z.ltb_ge; exact Hlater).
    now rewrite andb_false_r. }
  eexists _, _, _, _. split; [|split; [|split; [|split; [|split]]]].
  - apply (update_accepts (UVal payload)). now left.
  - reflexivity.
  - cbn [backend set defaultSessionStorage]. apply lookup_insert_eq.
  - reflexivity.
  - unfold init, storage_get, bind, ret, at_time.
    cbn [clock backend calls _id new_SessionImpl get set defaultSessionStorage].
    fold expires. rewrite Hget. reflexivity.
  - split; [reflexivity|]. split; [reflexivity|].
    cbn [backend]. apply lookup_insert_eq.
Qed.

Lemma update_then_init_round_trip_witness :
  exists updated w1 session w2,
    update (UVal (JObj [("user", JStr "ann")]))
           (new_SessionImpl "s1" (mkOptions (Some 60) None))
           (mkWorld 1000 MemorySessionStorage.new [])
      = (Ok updated, w1)
    /\ _store updated = JObj [("user", JStr "ann")]
    /\ backend w1 !! "s1" = Some (JObj [("user", JStr "ann")], 1000 + 1000 * 60)
    /\ _store (new_SessionImpl "s1" (mkOptions None None)) = JUndefined
    /\ init (new_SessionImpl "s1" (mkOptions None None)) (at_time 61000 w1) = (Ok session, w2)
    /\ session = mkSession "s1" (mkOptions None None) (JObj [("user", JStr "ann")])
    /\ _store session = JObj [("user", JStr "ann")]
    /\ backend w2 !! "s1" = Some (JObj [("user", JStr "ann")], 1000 + 1000 * 60).
Proof.
  apply (update_then_init_round_trip
           (new_SessionImpl "s1" (mkOptions (Some 60) None)) (mkOptions None None)
           (JObj [("user", JStr "ann")])
           (mkWorld 1000 MemorySessionStorage.new []) 61000).
  - reflexivity.
  - simpl. lia.
Defined.

(** C4. Update validation: an argument of [update] that is neither an object
    nor a function must raise before any storage call and leave the
    persisted record and the cache as they were. The code does not do so for
    [null], which is not an object but whose [typeof] is ["object"]: on a
    session whose record and cache hold a payload, [update(null)] raises
    nothing, overwrites the record with [null] and sets the cache to
    [null]. *)
Theorem update_null_is_accepted :
  let payload := JObj [("user", JStr "ann")] in
  let this := mkSession "s1" (mkOptions None None) payload in
  let w := mkWorld 1000 (MemorySessionStorage.holding "s1" payload 1801000) [] in
  is_object JNull = false
  /\ update (UVal JNull) this w
     = (Ok (mkSession "s1" (mkOptions None None) JNull),
        mkWorld 1000 (MemorySessionStorage.holding "s1" JNull 1801000)
                [CallSet "s1" JNull 1801000]).
Proof.
  split; [reflexivity|].
  rewrite (update_accepts (UVal JNull)) by (now left).
  simpl. unfold MemorySessionStorage.set, MemorySessionStorage.holding.
  now rewrite insert_insert_eq.
Qed.

(** C5. Expiry of the default in-memory storage: [get(id)] answers the
    stored payload when a record for [id] exists whose expiry is at most 0
    or not strictly passed by the clock, and leaves the map as it is; when
    the record's expiry is positive and strictly in the past it deletes the
    record and answers [undefined]; without a record it answers [undefined].
    Expiry is enforced nowhere else: [get], [set] and [delete] on one id
    leave the record of every other id in place, expired or not. *)
Theorem memory_get_enforces_expiry_lazily
    (now : Z) (sid other : string) (store : gmap string (jsval * Z))
    (data payload : jsval) (expires until : Z) :
  (store !! sid = Some (data, expires) -> expires <= 0 \/ now <= expires ->
     MemorySessionStorage.get now sid store = (data, store))
  /\ (store !! sid = Some (data, expires) -> 0 < expires -> expires < now ->
        MemorySessionStorage.get now sid store = (JUndefined, base.delete sid store)
        /\ base.delete sid store !! sid = None)
  /\ (store !! sid = None ->
        MemorySessionStorage.get now sid store = (JUndefined, store))
  /\ (other <> sid ->
        snd (MemorySessionStorage.get now sid store) !! other = store !! other
        /\ MemorySessionStorage.set now sid payload until store !! other = store !! other
        /\ MemorySessionStorage.delete now sid store !! other = store !! other).
Proof.
  rewrite memory_get_lookup. split; [|split; [|split]].
  - intros -> Hlive.
    assert ((0 <? expires) && (expires <? now) = false) as ->; [|reflexivity].
    destruct Hlive as [Hle | Hle].
    + apply andb_false_iff. left. apply Z.ltb_ge. exact Hle.
    + apply andb_false_iff. right. apply Z.ltb_ge. exact Hle.
  - intros -> Hpositive Hpast. split; [|apply lookup_delete_eq].
    assert ((0 <? expires) && (expires <? now) = true) as ->; [|reflexivity].
    apply andb_true_iff. split; apply Z.ltb_lt; assumption.
  - now intros ->.
  - intros Hother. split; [|split].
    + destruct (store !! sid) as [[d e]|]; [|reflexivity].
      destruct ((0 <? e) && (e <? now)); [|reflexivity].
      simpl. now apply lookup_delete_ne.
    + unfold MemorySessionStorage.set. now apply lookup_insert_ne.
    + unfold MemorySessionStorage.delete. now apply lookup_delete_ne.
Qed.

Lemma memory_get_enforces_expiry_lazily_witness :
  let live := MemorySessionStorage.holding "a" (JStr "x") 30 in
  let stale := MemorySessionStorage.holding "a" (JStr "x") 10 in
  let other := MemorySessionStorage.holding "b" (JStr "y") 10 in
  MemorySessionStorage.get 20 "a" live = (JStr "x", live)
  /\ MemorySessionStorage.get 20 "a" stale = (JUndefined, base.delete "a" stale)
  /\ MemorySessionStorage.get 20 "a" other = (JUndefined, other)
  /\ snd (MemorySessionStorage.get 20 "a" other) !! "b" = Some (JStr "y", 10).
Proof.
  intros live stale other. split; [|split; [|split]].
  - apply (memory_get_enforces_expiry_lazily 20 "a" "b" live (JStr "x") JNull 30 0).
    + reflexivity.
    + right. lia.
  - apply (memory_get_enforces_expiry_lazily 20 "a" "b" stale (JStr "x") JNull 10 0).
    + reflexivity.
    + lia.
    + lia.
  - apply (memory_get_enforces_expiry_lazily 20 "a" "b" other JNull JNull 0 0).
    reflexivity.
  - etransitivity.
    + apply (memory_get_enforces_expiry_lazily 20 "a" "b" other JNull JNull 0 0).
      discriminate.
    + reflexivity.
Defined.

(** C6. [end()] deletes the persisted record exactly when the cache is empty
    (falsy, which for a cache of the declared type means [undefined]) at the
    time of the call, through one [delete] call on the storage, and makes no
    storage call otherwise; in both cases the cache of the session is
    [undefined] afterwards. On the default storage the record of the
    session is gone after the deletion and the records of the other ids are
    as they were; with a cache that is not empty the storage is as it was.
    No other operation of a session deletes: [init] makes one [get] call,
    inside which alone the storage enforces expiry, so that a record is
    missing after it only if it was missing or had expired; [update] makes
    one [set] call or none and removes no record; [redirect] makes no
    call. *)
Theorem end_deletes_exactly_when_cache_empty {S} `{SessionStorage S}
    (this : SessionImpl) (w : World S) (m : World (gmap string (jsval * Z)))
    (store : update_arg) (url : string)
    (cookieHeader : string -> string -> option CookieOptions -> Z -> string) :
  (exists ended w',
     end_ this w = (Ok ended, w')
     /\ ended = mkSession (_id this) (_options this) JUndefined
     /\ _store ended = JUndefined
     /\ w' = (if truthy (_store this) then w
              else mkWorld (clock w) (delete (clock w) (_id this) (backend w))
                           (calls w ++ [CallDelete (_id this)])))
  /\ (truthy (_store this) = false ->
      backend (snd (end_ this m)) !! _id this = None
      /\ (forall other, other <> _id this ->
            backend (snd (end_ this m)) !! other = backend m !! other)
      /\ calls (snd (end_ this m)) = calls m ++ [CallDelete (_id this)])
  /\ (truthy (_store this) = true -> snd (end_ this m) = m)
  /\ calls (snd (init this w)) = calls w ++ [CallGet (_id this)]
  /\ (forall sid,
        backend (snd (init this m)) !! sid = None ->
        backend m !! sid = None
        \/ (sid = _id this
            /\ exists data expires,
                 backend m !! sid = Some (data, expires)
                 /\ 0 < expires /\ expires < clock m))
  /\ (exists made, calls (snd (update store this w)) = calls w ++ made /\ no_delete made)
  /\ (forall sid,
        backend (snd (update store this m)) !! sid = None -> backend m !! sid = None)
  /\ snd (redirect cookieHeader url this w) = w.
Proof.
  split; [|split; [|split; [|split; [|split; [|split; [|split]]]]]].
  - eexists _, _. split; [|split; [reflexivity|split; [reflexivity|reflexivity]]].
    unfold end_, bind. destruct (truthy (_store this)); reflexivity.
  - intros Hempty. unfold end_, bind, storage_delete, modify, ret. rewrite Hempty.
    cbn [negb snd backend calls delete defaultSessionStorage].
    unfold MemorySessionStorage.delete.
    split; [apply lookup_delete_eq|]. split; [|reflexivity].
    intros other Hother. now apply lookup_delete_ne.
  - intros Hfull. unfold end_, bind, ret. rewrite Hfull. reflexivity.
  - unfold init, storage_get, bind. simpl.
    destruct (get (clock w) (_id this) (backend w)). reflexivity.
  - intros sid. unfold init, storage_get, bind, ret.
    cbn [get defaultSessionStorage]. rewrite memory_get_lookup.
    destruct (backend m !! _id this) as [[data expires]|] eqn:Hrecord;
      [|cbn [snd backend]; now left].
    destruct ((0 <? expires) && (expires <? clock m)) eqn:Hexpired;
      [|cbn [snd backend]; now left].
    cbn [snd backend]. intros Hgone.
    destruct (decide (sid = _id this)) as [->|Hother].
    + right. split; [reflexivity|]. exists data, expires.
      apply andb_prop in Hexpired as [Hpos Hpast].
      apply Z.ltb_lt in Hpos, Hpast. now repeat split.
    + left. now rewrite lookup_delete_ne in Hgone.
  - unfold update.
    destruct (negb (String.eqb (typeof_arg store) "object")
              && negb (String.eqb (typeof_arg store) "function")).
    + exists []. simpl. rewrite app_nil_r. split; [reflexivity|]. intros sid [].
    + eexists [_]. simpl. split; [reflexivity|].
      intros sid [Heq|[]]. discriminate.
  - intros sid. unfold update.
    destruct (negb (String.eqb (typeof_arg store) "object")
              && negb (String.eqb (typeof_arg store) "function")); [easy|].
    unfold bind, Date_now, gets, storage_set, modify, ret.
    cbn [snd backend clock set defaultSessionStorage]. unfold MemorySessionStorage.set.
    intros Hgone. destruct (decide (sid = _id this)) as [->|Hother].
    + now rewrite lookup_insert_eq in Hgone.
    + now rewrite lookup_insert_ne in Hgone.
  - reflexivity.
Qed.

Lemma end_deletes_exactly_when_cache_empty_witness :
  backend (snd (end_ (new_SessionImpl "s1" (mkOptions None None))
                  (mkWorld 1000 (MemorySessionStorage.holding "s1" (JObj []) 5000) [])))
    !! "s1" = None
  /\ snd (end_ (mkSession "s1" (mkOptions None None) (JObj []))
             (mkWorld 1000 (MemorySessionStorage.holding "s1" (JObj []) 5000) []))
     = mkWorld 1000 (MemorySessionStorage.holding "s1" (JObj []) 5000) [].
Proof.
  split.
  - destruct (end_deletes_exactly_when_cache_empty
                (new_SessionImpl "s1" (mkOptions None None))
                (mkWorld 1000 (MemorySessionStorage.holding "s1" (JObj []) 5000) [])
                (mkWorld 1000 (MemorySessionStorage.holding "s1" (JObj []) 5000) [])
                (UVal JNull) "/" (fun _ _ _ _ => ""))
      as (_ & Hempty & _).
    apply Hempty. reflexivity.
  - destruct (end_deletes_exactly_when_cache_empty
                (mkSession "s1" (mkOptions None None) (JObj []))
                (mkWorld 1000 (MemorySessionStorage.holding "s1" (JObj []) 5000) [])
                (mkWorld 1000 (MemorySessionStorage.holding "s1" (JObj []) 5000) [])
                (UVal JNull) "/" (fun _ _ _ _ => ""))
      as (_ & _ & Hfull & _).
    apply Hfull. reflexivity.
Defined.

End SessionFacts.

(** * Properties of the renderer *)

Section RendererFacts.
Import Renderer.
Context `{Externals}.

(** ** [matchRoute] *)

Lemma matchRoute_nil (req : Request) (ctx : jsval) (w : World) :
  matchRoute req ctx [] w = (Ok (IsRoute (only_url (req_url req))), w).
Proof. reflexivity. Qed.

Lemma for_of_return {A R} (blk : A -> M World R) (x : A) (rest : list A) (w : World) :
  for_of (x :: rest) (fun a => let* b := blk a in ret (Some b)) w
  = match blk x w with
    | (Ok b, w') => (Ok (Some b), w')
    | (Throw e, w') => (Throw e, w')
    end.
Proof.
  simpl. unfold bind, ret. destruct (blk x w) as [[b|e] w']; reflexivity.
Qed.

(** [matchRoute] on a table that is not empty is the first iteration of its
    loop: the routes after the first one are never examined. *)
Lemma matchRoute_cons (req : Request) (ctx : jsval) (r : Route) (rest : list Route)
    (w : World) :
  matchRoute req ctx (r :: rest) w
  = iteration req ctx (req_url req) (cleanPath (pathname (req_url req))) r w.
Proof.
  unfold matchRoute. cbn [length Nat.ltb Nat.leb].
  unfold bind at 1. rewrite for_of_return.
  destruct (iteration _ _ _ _ r w) as [[b|e] w']; reflexivity.
Qed.

Lemma matchRoute_first_only (req : Request) (ctx : jsval) (r : Route) (rest : list Route)
    (w : World) :
  matchRoute req ctx (r :: rest) w = matchRoute req ctx [r] w.
Proof. now rewrite !matchRoute_cons. Qed.

(** When the pattern of the first route does not match, the answer is the
    context with the URL alone and no loader is called. *)
Lemma matchRoute_first_no_match (req : Request) (ctx : jsval)
    (pattern : IURLPattern) (load : unit -> result RouteModule) (meta : RouteMeta)
    (rest : list Route) (w : World) :
  exec pattern (mkInput None (cleanPath (pathname (req_url req)))) = None ->
  matchRoute req ctx ((pattern, load, meta) :: rest) w
    = (Ok (IsRoute (only_url (req_url req))), w).
Proof.
  intros Hno. rewrite matchRoute_cons. unfold iteration. now rewrite Hno.
Qed.

Lemma logged_logged (l1 l2 : list event) (w : World) :
  logged l2 (logged l1 w) = logged (l1 ++ l2) w.
Proof. unfold logged. simpl. now rewrite app_assoc. Qed.

(** A call followed by [if (res instanceof Promise) res = await res]. *)
Lemma call_then_await {A} (call e : event) (res : result returned)
    (k : retval -> M World A) (w : World) :
  (let* r := (let* _ := emit call in lift res) in let* r := await e r in k r) w
  = match settled res with
    | Ok v => k v (logged (call :: awaits e res) w)
    | Throw err => (Throw err, logged (call :: awaits e res) w)
    end.
Proof.
  unfold bind, emit, modify, lift, await, ret.
  destruct res as [[v|[v|err]]|err]; simpl; rewrite ?logged_logged; reflexivity.
Qed.

(** The first iteration when the pattern matches, the module loads and its
    data configuration has a [get] function. *)
Lemma iteration_with_fetcher (req : Request) (ctx : jsval)
    (pattern : IURLPattern) (load : unit -> result RouteModule) (meta : RouteMeta)
    (ret_ : URLPatternResult) (module_ : RouteModule) (config : DataConfig)
    (fetcher : Request -> jsval -> result returned) (w : World) :
  exec pattern (mkInput None (cleanPath (pathname (req_url req)))) = Some ret_ ->
  load tt = Ok module_ ->
  mod_data module_ = PlainObject config ->
  get config = Function fetcher ->
  iteration req ctx (req_url req) (cleanPath (pathname (req_url req))) (pattern, load, meta) w
  = let route :=
      mkContext (appendUrlParams (req_url req) (groups (result_pathname ret_)))
                (mod_default module_) (Some (meta_filename meta)) None (cacheTtl config) in
    let request := new_Request (Renderer.url route) req in
    (let* short :=
       match all config with
       | Function allFetcher =>
           let* res := (let* _ := emit (CallAll request) in lift (allFetcher request)) in
           let* res := await AwaitAll res in
           match res with
           | Resp res => ret (Some res)
           | Plain _ => ret None
           end
       | NotFunction _ => ret None
       end in
     match short with
     | Some res => ret (IsResponse res)
     | None =>
         let* res := (let* _ := emit (CallGet request ctx) in lift (fetcher request ctx)) in
         let* res := await AwaitGet res in
         match res with
         | Resp res =>
             if negb (resp_status res =? 200) then ret (IsResponse res)
             else
               let* json := (let* _ := emit (ReadJson res) in lift (Response_json res)) in
               ret (IsRoute (mkContext (Renderer.url route) (moduleDefaultExport route)
                                       (filename route) (Some json) (dataExpires route)))
         | Plain _ => ret (IsRoute route)
         end
     end) (logged [CallLoad meta] w).
Proof.
  intros Hexec Hload Hdata Hget. unfold iteration. rewrite Hexec.
  unfold bind at 1. unfold bind at 1. unfold emit at 1, modify, lift at 1.
  rewrite Hload, Hdata, Hget. reflexivity.
Qed.

(** C2, as amended. For the route [matchRoute] examines, the first of the
    table, when its pattern matches and its module loads. When the data
    configuration has both a per-request function [get] and a collective
    function [all]: after the loader, [all] is called first, with the
    request that has the resolved URL (the URL of the request with the
    captured groups as parameters) and the method and headers of the
    request, and is awaited when it answers a promise; if it comes to a
    [Response], that response is the result and [get] is never called; if
    it throws, so does [matchRoute]; only when it comes to another value is
    [get] called, after it, with the same request. When the data
    configuration has no function [get], or the module exports no data
    configuration, only the loader is called: [all] is not called, whatever
    it is, and the result is the context without data. *)
Theorem all_runs_before_get (req : Request) (ctx : jsval)
    (pattern : IURLPattern) (load : unit -> result RouteModule) (meta : RouteMeta)
    (rest : list Route) (ret_ : URLPatternResult) (module_ : RouteModule) (w : World) :
  exec pattern (mkInput None (cleanPath (pathname (req_url req)))) = Some ret_ ->
  load tt = Ok module_ ->
  let resolved := appendUrlParams (req_url req) (groups (result_pathname ret_)) in
  let request := mkRequest resolved (req_method req) (req_headers req) in
  (forall config fetcher allFetcher,
     mod_data module_ = PlainObject config ->
     get config = Function fetcher ->
     all config = Function allFetcher ->
     let first := [CallLoad meta; CallAll request] ++ awaits AwaitAll (allFetcher request) in
     match settled (allFetcher request) with
     | Ok (Resp res) =>
         matchRoute req ctx ((pattern, load, meta) :: rest) w
         = (Ok (IsResponse res), logged first w)
     | Throw err =>
         matchRoute req ctx ((pattern, load, meta) :: rest) w
         = (Throw err, logged first w)
     | Ok (Plain _) =>
         exists result more,
           matchRoute req ctx ((pattern, load, meta) :: rest) w
           = (result, logged (first ++ CallGet request ctx :: more) w)
     end)
  /\ ((forall config,
         mod_data module_ = PlainObject config -> exists v, get config = NotFunction v) ->
      matchRoute req ctx ((pattern, load, meta) :: rest) w
      = (Ok (IsRoute (mkContext resolved (mod_default module_) (Some (meta_filename meta))
                                None
                                (match mod_data module_ with
                                 | PlainObject config => cacheTtl config
                                 | NotPlainObject _ => JUndefined
                                 end))),
         logged [CallLoad meta] w)).
Proof.
  intros Hexec Hload resolved request. split.
  - intros config fetcher allFetcher Hdata Hget Hall first.
    remember (matchRoute req ctx ((pattern, load, meta) :: rest) w) as run eqn:Hrun.
    rewrite matchRoute_cons in Hrun.
    rewrite (iteration_with_fetcher _ _ _ _ _ _ _ _ _ _ Hexec Hload Hdata Hget) in Hrun.
    cbv zeta in Hrun. rewrite Hall in Hrun. cbn [Renderer.url] in Hrun.
    unfold new_Request in Hrun. fold resolved in Hrun. fold request in Hrun.
    unfold bind at 1 in Hrun. rewrite call_then_await in Hrun. subst first.
    destruct (settled (allFetcher request)) as [[res|v]|err];
      cbv beta iota delta [ret] in Hrun; rewrite logged_logged in Hrun; try exact Hrun.
    rewrite call_then_await in Hrun.
    destruct (settled (fetcher request ctx)) as [[res|v']|err];
      cbv beta iota in Hrun; rewrite logged_logged, <- app_assoc in Hrun.
    + destruct (negb (resp_status res =? 200)).
      * eexists _, _. exact Hrun.
      * unfold bind, emit, modify, lift in Hrun.
        destruct (Response_json res) as [json|err];
          rewrite logged_logged, <- !app_assoc in Hrun; eexists _, _; exact Hrun.
    + eexists _, _. exact Hrun.
    + eexists _, _. exact Hrun.
  - intros Hnoget. rewrite matchRoute_cons. unfold iteration. rewrite Hexec.
    unfold bind at 1. unfold bind at 1. unfold emit at 1, modify, lift at 1.
    rewrite Hload.
    destruct (mod_data module_) as [config|other].
    + destruct (Hnoget config eq_refl) as [v ->]. reflexivity.
    + reflexivity.
Qed.

(** [matchRoute] when [get] is called: what it answers for each outcome. *)
Lemma matchRoute_get (req : Request) (ctx : jsval) (routes : list Route)
    (outcome : result retval) (w : World) :
  get_comes_to req ctx routes outcome ->
  exists route,
    data route = None
    /\ fst (matchRoute req ctx routes w)
       = match outcome with
         | Ok (Plain _) => Ok (IsRoute route)
         | Ok (Resp res) =>
             if negb (resp_status res =? 200) then Ok (IsResponse res)
             else match Response_json res with
                  | Ok json =>
                      Ok (IsRoute (mkContext (url route) (moduleDefaultExport route)
                                             (filename route) (Some json) (dataExpires route)))
                  | Throw err => Throw err
                  end
         | Throw err => Throw err
         end.
Proof.
  intros (pattern & load & meta & rest & ret_ & module_ & config & fetcher
          & -> & Hexec & Hload & Hdata & Hget & Hall & Hout).
  eexists (mkContext _ _ _ None _). split; [reflexivity|].
  rewrite matchRoute_cons.
  rewrite (iteration_with_fetcher _ _ _ _ _ _ _ _ _ _ Hexec Hload Hdata Hget).
  cbv zeta. cbn [Renderer.url].
  unfold bind at 1.
  assert (exists w',
    match all config with
    | Function allFetcher =>
        let* res := (let* _ := emit (CallAll (new_Request (appendUrlParams (req_url req)
                                        (groups (result_pathname ret_))) req))
                     in lift (allFetcher (new_Request (appendUrlParams (req_url req)
                                        (groups (result_pathname ret_))) req))) in
        let* res := await AwaitAll res in
        match res with
        | Resp res => ret (Some res)
        | Plain _ => ret None
        end
    | NotFunction _ => ret None
    end (logged [CallLoad meta] w) = (Ok None, w')) as [w' ->].
  { destruct (all config) as [allFetcher|?].
    - destruct Hall as [v Hv]. rewrite call_then_await, Hv. eexists. reflexivity.
    - eexists. reflexivity. }
  rewrite call_then_await, Hout.
  destruct outcome as [[res|v]|err]; [|reflexivity|reflexivity].
  cbn [filename moduleDefaultExport dataExpires Renderer.url].
  destruct (negb (resp_status res =? 200)); [reflexivity|].
  unfold bind, emit, modify, lift, ret.
  destruct (Response_json res); reflexivity.
Qed.

(** A context with a data payload comes from a call of [get] that came to a
    [Response] with status 200 whose body parsed to that payload. *)
Lemma matchRoute_data (req : Request) (ctx : jsval) (routes : list Route)
    (w : World) (route : RenderContext) (d : jsval) :
  fst (matchRoute req ctx routes w) = Ok (IsRoute route) ->
  data route = Some d ->
  exists res,
    get_comes_to req ctx routes (Ok (Resp res))
    /\ resp_status res = 200
    /\ Response_json res = Ok d.
Proof.
  destruct routes as [|[[pattern load] meta] rest].
  { rewrite matchRoute_nil. simpl. intros [= <-]. discriminate. }
  rewrite matchRoute_cons. unfold iteration.
  destruct (exec pattern _) as [ret_|] eqn:Hexec; [|simpl; intros [= <-]; discriminate].
  unfold bind at 1. unfold bind at 1. unfold emit at 1, modify, lift at 1.
  destruct (load tt) as [module_|err] eqn:Hload; [|discriminate].
  set (dataConfig := match mod_data module_ with
                     | PlainObject config => config
                     | NotPlainObject _ => empty_config
                     end).
  destruct (get dataConfig) as [fetcher|?] eqn:Hget;
    [|simpl; intros [= <-]; discriminate].
  assert (exists config, mod_data module_ = PlainObject config /\ dataConfig = config)
    as (config & Hdata & Hcfg).
  { subst dataConfig. destruct (mod_data module_); [eauto|discriminate]. }
  rewrite Hcfg in *. clear Hcfg dataConfig.
  cbn [Renderer.url data only_url].
  set (request := new_Request _ req).
  unfold bind at 1.
  destruct (all config) as [allFetcher|?] eqn:Hall.
  - rewrite call_then_await.
    destruct (settled (allFetcher request)) as [[res|v]|err] eqn:Hsettled;
      cbv beta iota delta [ret]; try discriminate.
    rewrite call_then_await.
    destruct (settled (fetcher request ctx)) as [[res|v']|err] eqn:Hout;
      cbv beta iota; try discriminate; [|simpl; intros [= <-]; discriminate].
    destruct (resp_status res =? 200) eqn:Hstatus; [|discriminate]. cbn [negb].
    unfold bind, emit, modify, lift, ret.
    destruct (Response_json res) as [json|err] eqn:Hjson; [|discriminate].
    simpl. intros [= <-]. simpl. intros [= ->].
    exists res. split; [|split; [now apply Z.eqb_eq|assumption]].
    exists pattern, load, meta, rest, ret_, module_, config, fetcher.
    rewrite Hall. repeat split; eauto.
  - unfold ret at 1. rewrite call_then_await.
    destruct (settled (fetcher request ctx)) as [[res|v']|err] eqn:Hout;
      cbv beta iota; try discriminate; [|simpl; intros [= <-]; discriminate].
    destruct (resp_status res =? 200) eqn:Hstatus; [|discriminate]. cbn [negb].
    unfold bind, emit, modify, lift, ret.
    destruct (Response_json res) as [json|err] eqn:Hjson; [|discriminate].
    simpl. intros [= <-]. simpl. intros [= ->].
    exists res. split; [|split; [now apply Z.eqb_eq|assumption]].
    exists pattern, load, meta, rest, ret_, module_, config, fetcher.
    rewrite Hall. repeat split; eauto.
Qed.

(** C10. When the per-request function [get] of the route comes to a value
    that is no [Response], a plain JSON value included, the context
    [matchRoute] answers has no data payload. A context has a data payload
    only when [get] came to a [Response] with status 200 whose body parsed
    as JSON to that payload, and in that case it has it. *)
Theorem get_payload_only_from_200_response (req : Request) (ctx : jsval)
    (routes : list Route) (w : World) :
  (forall v,
     get_comes_to req ctx routes (Ok (Plain v)) ->
     exists route,
       fst (matchRoute req ctx routes w) = Ok (IsRoute route) /\ data route = None)
  /\ (forall route d,
        fst (matchRoute req ctx routes w) = Ok (IsRoute route) ->
        data route = Some d ->
        exists res,
          get_comes_to req ctx routes (Ok (Resp res))
          /\ resp_status res = 200
          /\ Response_json res = Ok d)
  /\ (forall res d,
        get_comes_to req ctx routes (Ok (Resp res)) ->
        resp_status res = 200 ->
        Response_json res = Ok d ->
        exists route,
          fst (matchRoute req ctx routes w) = Ok (IsRoute route) /\ data route = Some d).
Proof.
  split; [|split].
  - intros v Hget.
    destruct (matchRoute_get req ctx routes _ w Hget) as (route & Hnone & Hrun).
    exists route. split; assumption.
  - intros route d. apply matchRoute_data.
  - intros res d Hget Hstatus Hjson.
    destruct (matchRoute_get req ctx routes _ w Hget) as (route & Hnone & Hrun).
    rewrite Hstatus, Hjson in Hrun. eexists. split; [exact Hrun|reflexivity].
Qed.

(** ** The rewriter *)

Lemma rewrite_nodes_cons (handlers : list (string * handler)) (n : node) (rest : list node)
    (st : RewriteState) :
  rewrite_nodes handlers (n :: rest) st
  = let '(out1, st1) := rewrite_node handlers n st in
    let '(out2, st2) := rewrite_nodes handlers rest st1 in
    (out1 ++ out2, st2).
Proof. reflexivity. Qed.

Lemma rewrite_node_element (handlers : list (string * handler)) (t : string)
    (attrs : list (string * string)) (children : list node) (st : RewriteState) :
  rewrite_node handlers (Element t attrs children) st
  = let '(el, st1) := run_handlers handlers (new_El t attrs) st in
    let '(children', st2) := rewrite_nodes handlers children st1 in
    (emitted el children', st2).
Proof. reflexivity. Qed.

Lemma rewrite_nodes_app (handlers : list (string * handler)) (l1 l2 : list node)
    (st : RewriteState) :
  rewrite_nodes handlers (l1 ++ l2) st
  = let '(out1, st1) := rewrite_nodes handlers l1 st in
    let '(out2, st2) := rewrite_nodes handlers l2 st1 in
    (out1 ++ out2, st2).
Proof.
  revert st. induction l1 as [|n l1 IH]; intros st.
  - simpl. now destruct (rewrite_nodes handlers l2 st).
  - rewrite <- app_comm_cons, !rewrite_nodes_cons.
    destruct (rewrite_node handlers n st) as [out1 st1].
    rewrite IH.
    destruct (rewrite_nodes handlers l1 st1) as [out2 st2].
    destruct (rewrite_nodes handlers l2 st2) as [out3 st3].
    now rewrite app_assoc.
Qed.

Lemma plug_extend (c : context) (more filling : list node) :
  plug (extend c more) filling = plug c filling ++ more.
Proof.
  destruct c; simpl.
  - now rewrite <- !app_assoc.
  - now rewrite <- app_assoc.
Qed.

Lemma emitted_kept (el : El) (children : list node) :
  dropped el = false ->
  emitted el children
  = el_before el
    ++ Element (el_tagName el) (el_attributes el) (children ++ el_appended el)
    :: el_after el.
Proof.
  unfold dropped, emitted. intros Hkept.
  apply orb_false_iff in Hkept as [-> Hrep].
  destruct (el_replacement el); [discriminate|reflexivity].
Qed.

(** What fills a hole is rewritten in place: when its rewriting is [R]
    whatever the flags, and does [inside] to them, and no enclosing element
    is dropped, the document rewrites to the rewriting of what surrounds the
    hole, filled with [R]. *)
Lemma rewrite_plug (handlers : list (string * handler)) (filling R : list node)
    (inside : RewriteState -> RewriteState) (c : context) (st : RewriteState) :
  (forall s, rewrite_nodes handlers filling s = (R, inside s)) ->
  Forall (keeps handlers) (ancestors c) ->
  rewrite_nodes handlers (plug c filling) st
  = (plug (fst (rewrite_context handlers c inside st)) R,
     snd (rewrite_context handlers c inside st)).
Proof.
  intros Hfill. revert st.
  induction c as [l r | l t a inner IH r]; intros st Hkeep.
  - cbn [plug rewrite_context]. rewrite rewrite_nodes_app.
    destruct (rewrite_nodes handlers l st) as [l' st1].
    rewrite rewrite_nodes_app, Hfill.
    destruct (rewrite_nodes handlers r (inside st1)) as [r' st2]. reflexivity.
  - simpl in Hkeep. apply Forall_cons in Hkeep as [Hkept Hkeep].
    cbn [plug rewrite_context].
    rewrite rewrite_nodes_app.
    destruct (rewrite_nodes handlers l st) as [l' st1].
    rewrite rewrite_nodes_cons, rewrite_node_element.
    specialize (Hkept a st1).
    destruct (run_handlers handlers (new_El t a) st1) as [el st2]. simpl in Hkept.
    rewrite IH by assumption.
    destruct (rewrite_context handlers inner inside st2) as [inner' st3].
    cbn [fst snd].
    destruct (rewrite_nodes handlers r st3) as [r' st4].
    cbn [fst snd plug]. rewrite plug_extend, emitted_kept by assumption.
    now rewrite <- !app_assoc.
Qed.

(** ** The handlers *)

Lemma run_handlers_hit (selector : string) (h : handler) (handlers : list (string * handler))
    (el : El) (st : RewriteState) :
  selector = el_tagName el ->
  run_handlers ((selector, h) :: handlers) el st
  = run_handlers handlers (fst (h el st)) (snd (h el st)).
Proof.
  intros ->. unfold run_handlers. simpl. rewrite String.eqb_refl.
  now destruct (h el st).
Qed.

Lemma run_handlers_miss (selector : string) (h : handler) (handlers : list (string * handler))
    (el : El) (st : RewriteState) :
  selector <> el_tagName el ->
  run_handlers ((selector, h) :: handlers) el st = run_handlers handlers el st.
Proof.
  intros Hne. unfold run_handlers. simpl.
  apply String.eqb_neq in Hne. now rewrite Hne.
Qed.

(** Case analysis on the innermost scrutinee of the goal. *)
Ltac case_matches :=
  repeat match goal with
         | |- context [match ?x with _ => _ end] =>
             lazymatch x with
             | context [match _ with _ => _ end] => fail
             | _ => destruct x
             end
         end.

Lemma linkHandler_keeps (isDev : bool) (el : El) (st : RewriteState) :
  dropped (fst (linkHandler isDev el st)) = dropped el
  /\ el_tagName (fst (linkHandler isDev el st)) = el_tagName el.
Proof. unfold linkHandler. case_matches; split; reflexivity. Qed.

Lemma scriptHandler_keeps (el : El) (st : RewriteState) :
  dropped (fst (scriptHandler el st)) = dropped el
  /\ el_tagName (fst (scriptHandler el st)) = el_tagName el.
Proof. unfold scriptHandler. case_matches; split; reflexivity. Qed.

Lemma commonHandler_keeps (routes : list Route) (isDev : bool) (el : El) (st : RewriteState) :
  dropped (fst (commonHandler routes isDev el st)) = dropped el
  /\ el_tagName (fst (commonHandler routes isDev el st)) = el_tagName el.
Proof. unfold commonHandler. case_matches; split; reflexivity. Qed.

(** The handlers registered on every path drop no element. *)
Lemma base_handlers_keep (options : RenderOptions) (el : El) (st : RewriteState) :
  dropped (fst (run_handlers (base_handlers options) el st)) = dropped el.
Proof.
  unfold base_handlers.
  destruct (String.eqb_spec "link" (el_tagName el)) as [Hlink|Hlink].
  { rewrite run_handlers_hit by assumption.
    destruct (linkHandler_keeps (isDev options) el st) as [Hd Ht].
    rewrite !run_handlers_miss by (rewrite Ht, <- Hlink; discriminate). exact Hd. }
  rewrite run_handlers_miss by assumption.
  destruct (String.eqb_spec "script" (el_tagName el)) as [Hscript|Hscript].
  { rewrite run_handlers_hit by assumption.
    destruct (scriptHandler_keeps el st) as [Hd Ht].
    rewrite !run_handlers_miss by (rewrite Ht, <- Hscript; discriminate). exact Hd. }
  rewrite run_handlers_miss by assumption.
  destruct (String.eqb_spec "head" (el_tagName el)) as [Hhead|Hhead].
  { rewrite run_handlers_hit by assumption.
    destruct (commonHandler_keeps (routes options) (isDev options) el st) as [Hd Ht].
    rewrite !run_handlers_miss by (rewrite Ht, <- Hhead; discriminate). exact Hd. }
  rewrite run_handlers_miss by assumption.
  destruct (String.eqb_spec "body" (el_tagName el)) as [Hbody|Hbody].
  { rewrite run_handlers_hit by assumption.
    destruct (commonHandler_keeps (routes options) (isDev options) el st) as [Hd Ht].
    exact Hd. }
  rewrite run_handlers_miss by assumption. reflexivity.
Qed.

(** On the SSR path only the two markers are dropped. *)
Lemma ssr_handlers_keep (route : RenderContext) (headCollection : list string)
    (ssrOutput : string) (options : RenderOptions) (t : string) :
  t <> "ssr-head" -> t <> "ssr-body" ->
  keeps (ssr_handlers route headCollection ssrOutput ++ base_handlers options) t.
Proof.
  intros Hhead Hbody attrs st. unfold ssr_handlers. cbn [app].
  rewrite !run_handlers_miss by (cbn [el_tagName new_El]; congruence).
  apply base_handlers_keep.
Qed.

Lemma unmarked_kept (route : RenderContext) (headCollection : list string)
    (ssrOutput : string) (options : RenderOptions) (c : context) :
  unmarked c ->
  Forall (keeps (ssr_handlers route headCollection ssrOutput ++ base_handlers options))
         (ancestors c).
Proof.
  unfold unmarked. intros Hc. eapply Forall_impl; [exact Hc|].
  intros t [Hhead Hbody]. now apply ssr_handlers_keep.
Qed.

Lemma fold_before (headCollection : list string) (el : El) :
  fold_left (fun el tag => before tag el) headCollection el
  = mkEl (el_tagName el) (el_attributes el) (el_before el ++ map Raw headCollection)
         (el_after el) (el_appended el) (el_replacement el) (el_removed el).
Proof.
  revert el. induction headCollection as [|tag rest IH]; intros el.
  - simpl. rewrite app_nil_r. now destruct el.
  - simpl. rewrite IH. unfold before. simpl. now rewrite <- app_assoc.
Qed.

Lemma ssrHeadHandler_inserts (route : RenderContext) (headCollection : list string)
    (el : El) (st : RewriteState) :
  ssrHeadHandler route headCollection el st
  = (mkEl (el_tagName el) (el_attributes el)
          (el_before el ++ map Raw headCollection ++ embedded route ++ hydration route)
          (el_after el) (el_appended el) (el_replacement el) true,
     st).
Proof.
  unfold ssrHeadHandler, embedded, hydration. rewrite fold_before.
  destruct (data route) as [d|]; [destruct (truthy d)|];
    (destruct (filename route) as [f|]; [destruct (String.eqb f "")|]);
    cbn [negb]; unfold remove, before;
    cbn [el_tagName el_attributes el_before el_after el_appended
         el_replacement el_removed];
    rewrite <- ?app_assoc, ?app_nil_r; reflexivity.
Qed.

(** The marker [ssr-head] is rewritten to the head fragments in order, the
    data script and the module script, whatever its attributes and content;
    the marker [ssr-body] to the markup. The handlers of the markers leave
    the flags as they are; the handlers invoked on the content of a marker,
    which is not emitted, change them as they do anywhere. *)
Lemma ssr_head_marker (route : RenderContext) (headCollection : list string)
    (ssrOutput : string) (options : RenderOptions)
    (attrs : list (string * string)) (children : list node) (st : RewriteState) :
  let handlers := ssr_handlers route headCollection ssrOutput ++ base_handlers options in
  rewrite_node handlers (Element "ssr-head" attrs children) st
  = (map Raw headCollection ++ embedded route ++ hydration route,
     snd (rewrite_nodes handlers children st)).
Proof.
  intros handlers. rewrite rewrite_node_element. subst handlers.
  unfold ssr_handlers at 1, base_handlers at 1. cbn [app].
  rewrite run_handlers_hit by reflexivity.
  rewrite ssrHeadHandler_inserts. cbn [fst snd].
  rewrite !run_handlers_miss by (cbn [el_tagName new_El]; discriminate).
  unfold run_handlers. cbn [fold_left].
  destruct (rewrite_nodes _ children st) as [children' st2].
  cbn [snd emitted el_replacement el_removed el_before el_after new_El app].
  now rewrite app_nil_r.
Qed.

Lemma ssr_body_marker (route : RenderContext) (headCollection : list string)
    (ssrOutput : string) (options : RenderOptions)
    (attrs : list (string * string)) (children : list node) (st : RewriteState) :
  let handlers := ssr_handlers route headCollection ssrOutput ++ base_handlers options in
  rewrite_node handlers (Element "ssr-body" attrs children) st
  = ([Raw ssrOutput], snd (rewrite_nodes handlers children st)).
Proof.
  intros handlers. rewrite rewrite_node_element. subst handlers.
  unfold ssr_handlers at 1, base_handlers at 1. cbn [app].
  rewrite run_handlers_miss by (cbn [el_tagName new_El]; discriminate).
  rewrite run_handlers_hit by reflexivity.
  unfold ssrBodyHandler. cbn [fst snd].
  rewrite !run_handlers_miss by (cbn [el_tagName new_El replace]; discriminate).
  unfold run_handlers. cbn [fold_left].
  destruct (rewrite_nodes _ children st) as [children' st2]. reflexivity.
Qed.

Lemma rewrite_nodes_single (handlers : list (string * handler)) (n : node)
    (R : list node) (inside : RewriteState -> RewriteState) :
  (forall s, rewrite_node handlers n s = (R, inside s)) ->
  forall s, rewrite_nodes handlers [n] s = (R, inside s).
Proof.
  intros Hn s. rewrite rewrite_nodes_cons, Hn. simpl. now rewrite app_nil_r.
Qed.

(** ** [fetch] *)

(** The initialisation of the engine: nothing when the flag is set; a call
    of [initWasm] otherwise, after which the flag is set if the promise was
    fulfilled, and the rejection thrown, with the flag as it was, if not. *)
Lemma init_lol_html_cases (w : World) :
  init_lol_html w
  = if lolHtmlReady w then (Ok tt, w)
    else match wasm w with
         | Ok _ => (Ok tt, mkWorld true (wasm w) (index_mtime w) (log w ++ [InitWasm]))
         | Throw err => (Throw err, logged [InitWasm] w)
         end.
Proof.
  unfold init_lol_html, start_init, finish_init, bind, gets, emit, modify, ret.
  destruct (lolHtmlReady w); [reflexivity|]. cbn [negb logged wasm].
  destruct (wasm w) as [[]|err]; reflexivity.
Qed.

Lemma once_ready_fulfilled {A} (w : World) (outcome : result A * World) :
  fst (init_lol_html w) = Ok tt -> once_ready w outcome = outcome.
Proof.
  unfold once_ready. destruct (init_lol_html w) as [[u|err] w']; [reflexivity|discriminate].
Qed.

Lemma once_ready_rejected {A} (w : World) (outcome : result A * World) (err : thrown) :
  fst (init_lol_html w) = Throw err ->
  once_ready w outcome = (Throw err, snd (init_lol_html w)).
Proof.
  unfold once_ready. destruct (init_lol_html w) as [[u|e] w']; [discriminate|].
  now intros [= ->].
Qed.

(** [fetch] is the initialisation followed by [try] and [catch]. *)
Lemma fetch_once_ready (req : Request) (ctx : jsval) (options : RenderOptions) (w : World) :
  fetch req ctx options w
  = once_ready w (try_catch (try_block req ctx options) (catch_block options)
                            (snd (init_lol_html w))).
Proof.
  unfold fetch, once_ready, bind.
  destruct (init_lol_html w) as [[[]|err] w']; reflexivity.
Qed.

(** The SSR path: the callback is there, [matchRoute] answers a context and
    the callback answers a string. *)
Lemma fetch_ssr (req : Request) (ctx : jsval) (options : RenderOptions) (w w1 : World)
    (callback : RenderContext -> list string -> result (jsval * list string))
    (route : RenderContext) (ssrOutput : string) (headCollection : list string) :
  ssrHandler options = Some callback ->
  matchRoute req ctx (routes options) (snd (init_lol_html w)) = (Ok (IsRoute route), w1) ->
  callback route [] = Ok (JStr ssrOutput, headCollection) ->
  fetch req ctx options w
  = once_ready w
      (Ok (mkResponse 200
             [("Content-Type", "text/html; charset=utf-8");
              ("Cache-Control",
               match dataExpires route with
               | JNum n => "public, max-age=" +:+ Number_toString n
               | _ => "public, max-age=0, must-revalidate"
               end)]
             (BodyDocument
                (fst (rewrite_nodes
                        (ssr_handlers route headCollection ssrOutput ++ base_handlers options)
                        (indexHtml options) (mkState false false))))),
       logged [CallSsrHandler route] w1).
Proof.
  intros Hssr Hmatch Hcall. rewrite fetch_once_ready. f_equal.
  unfold try_catch, try_block. unfold bind at 1. rewrite Hssr.
  unfold bind at 1. rewrite Hmatch.
  unfold bind at 1. unfold bind at 1. unfold emit, modify, lift. rewrite Hcall.
  reflexivity.
Qed.

(** C8. On the SSR path, where the callback answered a markup string, the
    response has status 200 and exactly two headers: the content type
    [text/html; charset=utf-8], and [Cache-Control], which is
    [public, max-age=<duration>] when the declared cache expiry of the
    context is a number and [public, max-age=0, must-revalidate] when it is
    anything else. This is the answer of [fetch] whenever the engine is
    ready or its initialisation is fulfilled; a rejected initialisation is
    thrown by [fetch] before any path is taken. *)
Theorem ssr_response_headers (req : Request) (ctx : jsval) (options : RenderOptions)
    (w w1 : World)
    (callback : RenderContext -> list string -> result (jsval * list string))
    (route : RenderContext) (ssrOutput : string) (headCollection : list string) :
  ssrHandler options = Some callback ->
  matchRoute req ctx (routes options) (snd (init_lol_html w)) = (Ok (IsRoute route), w1) ->
  callback route [] = Ok (JStr ssrOutput, headCollection) ->
  exists cacheControl document w2,
    fetch req ctx options w
    = once_ready w
        (Ok (mkResponse 200
               [("Content-Type", "text/html; charset=utf-8");
                ("Cache-Control", cacheControl)]
               (BodyDocument document)),
         w2)
    /\ (forall n, dataExpires route = JNum n ->
                  cacheControl = "public, max-age=" +:+ Number_toString n)
    /\ (typeof (dataExpires route) <> "number" ->
        cacheControl = "public, max-age=0, must-revalidate").
Proof.
  intros Hssr Hmatch Hcall.
  eexists _, _, _. split; [exact (fetch_ssr _ _ _ _ _ _ _ _ _ Hssr Hmatch Hcall)|].
  split.
  - intros n ->. reflexivity.
  - intros Hnot. destruct (dataExpires route); try reflexivity. now elim Hnot.
Qed.

(** C9. The data script the handler of [ssr-head] inserts, between the head
    fragments and the module script: when a data payload is there and the
    declared cache expiry is truthy, the script carries the attribute
    [data-expires] with the literal value [route.dataExpires], whatever the
    duration; when the expiry is falsy, as 0 and [undefined] are, the script
    carries no expiry attribute. The script is inserted when the payload is
    truthy; nothing is inserted for a payload that is falsy or missing, and
    so no expiry attribute either. The content of the marker is not
    emitted; the flags after the marker are those the handlers invoked on
    its content leave. *)
Theorem data_script_expiry_attribute (route : RenderContext)
    (headCollection : list string) (ssrOutput : string) (options : RenderOptions)
    (attrs : list (string * string)) (children : list node) (st : RewriteState) :
  let handlers := ssr_handlers route headCollection ssrOutput ++ base_handlers options in
  exists inserted,
    rewrite_node handlers (Element "ssr-head" attrs children) st
    = (map Raw headCollection ++ inserted ++ hydration route,
       snd (rewrite_nodes handlers children st))
    /\ (forall d,
          data route = Some d -> truthy (dataExpires route) = true ->
          let script :=
            Raw ("<script id=" +:+ quoted "aleph-ssr-data"
                 +:+ " type=" +:+ quoted "application/json"
                 +:+ " data-expires=" +:+ quoted "route.dataExpires" +:+ ">"
                 +:+ JSON_stringify d +:+ "</script>") in
          (inserted = [] \/ inserted = [script])
          /\ (truthy d = true -> inserted = [script]))
    /\ (forall d,
          data route = Some d -> truthy (dataExpires route) = false ->
          let script :=
            Raw ("<script id=" +:+ quoted "aleph-ssr-data"
                 +:+ " type=" +:+ quoted "application/json" +:+ ">"
                 +:+ JSON_stringify d +:+ "</script>") in
          (inserted = [] \/ inserted = [script])
          /\ (truthy d = true -> inserted = [script]))
    /\ (data route = None -> inserted = []).
Proof.
  intros handlers.
  exists (embedded route). split; [apply ssr_head_marker|].
  unfold embedded. split; [|split].
  - intros d -> ->. destruct (truthy d); split; auto; discriminate.
  - intros d -> ->. destruct (truthy d); split; auto; discriminate.
  - now intros ->.
Qed.

(** C7, as amended. On the SSR path, when the callback answers a markup
    string and the context has a truthy data payload: the response is the
    rewritten document, in which, wherever the base document has an
    [ssr-body] marker that no other marker encloses, the markup stands in its
    place as it is, and wherever it has such an [ssr-head] marker, there
    stand in its place the head fragments in order, then a script element
    of JSON content type whose content is the JSON serialization of the
    payload, with the attribute [data-expires] exactly when the declared
    cache expiry is truthy, then the module script; the marker itself and
    its content are gone. What surrounds a marker is rewritten by the other
    handlers, with the flags the handlers invoked on the content of the
    marker leave. *)
Theorem ssr_rewrite_substitution (req : Request) (ctx : jsval) (options : RenderOptions)
    (w w1 : World)
    (callback : RenderContext -> list string -> result (jsval * list string))
    (route : RenderContext) (ssrOutput : string) (headCollection : list string)
    (d : jsval) :
  ssrHandler options = Some callback ->
  matchRoute req ctx (routes options) (snd (init_lol_html w)) = (Ok (IsRoute route), w1) ->
  callback route [] = Ok (JStr ssrOutput, headCollection) ->
  data route = Some d ->
  truthy d = true ->
  let handlers := ssr_handlers route headCollection ssrOutput ++ base_handlers options in
  let content (children : list node) :=
    fun st : RewriteState => snd (rewrite_nodes handlers children st) in
  exists headers document w2,
    fetch req ctx options w
    = once_ready w (Ok (mkResponse 200 headers (BodyDocument document)), w2)
    /\ (forall c attrs children,
          indexHtml options = plug c [Element "ssr-body" attrs children] ->
          unmarked c ->
          document
          = plug (fst (rewrite_context handlers c (content children) (mkState false false)))
                 [Raw ssrOutput])
    /\ (forall c attrs children,
          indexHtml options = plug c [Element "ssr-head" attrs children] ->
          unmarked c ->
          document
          = plug (fst (rewrite_context handlers c (content children) (mkState false false)))
                 (map Raw headCollection
                  ++ Raw ("<script id=" +:+ quoted "aleph-ssr-data"
                          +:+ " type=" +:+ quoted "application/json"
                          +:+ (if truthy (dataExpires route)
                               then " data-expires=" +:+ quoted "route.dataExpires"
                               else "")
                          +:+ ">" +:+ JSON_stringify d +:+ "</script>")
                  :: hydration route)).
Proof.
  intros Hssr Hmatch Hcall Hdata Htruthy handlers content.
  eexists _, _, _. split; [exact (fetch_ssr _ _ _ _ _ _ _ _ _ Hssr Hmatch Hcall)|].
  fold handlers. split.
  - intros c attrs children -> Hc.
    rewrite (rewrite_plug handlers _ [Raw ssrOutput] (content children)); [reflexivity| |].
    + apply rewrite_nodes_single. intros s. apply ssr_body_marker.
    + now apply unmarked_kept.
  - intros c attrs children -> Hc.
    rewrite (rewrite_plug handlers _
               (map Raw headCollection ++ embedded route ++ hydration route)
               (content children)).
    + unfold embedded. rewrite Hdata, Htruthy. reflexivity.
    + apply rewrite_nodes_single. intros s. apply ssr_head_marker.
    + now apply unmarked_kept.
Qed.

End RendererFacts.

(** ** The application *)

Section AppFacts.
Import Renderer Runtime App.

(** C1. Match exclusivity: for a request whose normalized pathname matches
    exactly one registered pattern, not necessarily that of the first table
    entry, [matchRoute] must answer a context whose source file identifier
    is that route's. The code does not: its loop returns at the end of its
    first iteration. With the table [/about], [/posts/:id] and the request
    [/posts/42], which only the second pattern matches, the answer is the
    context with the URL alone, without a file name, and no loader is
    called. *)
Theorem matchRoute_misses_second_route :
  exec (literal "/about") (mkInput None (cleanPath "/posts/42")) = None
  /\ exec (capture "/posts/" "id") (mkInput None (cleanPath "/posts/42"))
     = Some (mkPatternResult (mkComponent "" []) (mkComponent "/posts/42" [("id", "42")]))
  /\ matchRoute request JNull [about; post (fetching (Plain JNull) JUndefined)] world
     = (Ok (IsRoute (only_url (req_url request))), world)
  /\ filename (only_url (req_url request)) = None
  /\ matchRoute request JNull [post (fetching (Plain JNull) JUndefined); about] world
     = (Ok (IsRoute (mkContext resolved (JStr "Post") (Some "./routes/posts/[id].tsx")
                               None JUndefined)),
        logged [CallLoad post_meta; CallGet (new_Request resolved request) JNull] world).
Proof. repeat split. Qed.

(** C2, as stated, fails. The route [/posts/:id] is matched and its data
    configuration has a collective function [all], which would answer a
    redirection, but no function [get]: [all] is never called, and the
    answer is the render context, not the redirection. *)
Lemma all_without_get_is_never_called :
  exec (capture "/posts/" "id") (mkInput None (cleanPath (pathname (req_url request))))
  = Some (mkPatternResult (mkComponent "" []) (mkComponent "/posts/42" [("id", "42")]))
  /\ (exists allFetcher,
        all guard_only = Function allFetcher
        /\ settled (allFetcher (new_Request resolved request)) = Ok (Resp login))
  /\ matchRoute request JNull [post guard_only; about] world
     = (Ok (IsRoute (mkContext resolved (JStr "Post") (Some "./routes/posts/[id].tsx")
                               None JUndefined)),
        logged [CallLoad post_meta] world)
  /\ (forall r, ~ In (CallAll r)
                     (log (snd (matchRoute request JNull [post guard_only; about] world))))
  /\ fst (matchRoute request JNull [post guard_only; about] world) <> Ok (IsResponse login).
Proof.
  split; [reflexivity|]. split; [eexists; split; reflexivity|].
  split; [reflexivity|]. split; [|discriminate].
  intros r [Hin|[]]. discriminate.
Qed.

Lemma all_runs_before_get_witness :
  matchRoute request JNull [post (guarded "42"); about] world
  = (Ok (IsResponse login),
     logged [CallLoad post_meta;
             CallAll (mkRequest resolved (req_method request) (req_headers request));
             AwaitAll] world)
  /\ matchRoute request JNull [post guard_only; about] world
     = (Ok (IsRoute (mkContext resolved (JStr "Post") (Some (meta_filename post_meta))
                               None JUndefined)),
        logged [CallLoad post_meta] world).
Proof.
  split; [|
    destruct (all_runs_before_get request JNull
                (capture "/posts/" "id")
                (fun _ => Ok (mkModule (JStr "Post") (PlainObject guard_only)))
                post_meta [about]
                (mkPatternResult (mkComponent "" []) (mkComponent "/posts/42" [("id", "42")]))
                (mkModule (JStr "Post") (PlainObject guard_only)) world)
      as (_ & Hnoget); [reflexivity|reflexivity|];
    apply Hnoget; intros config [= <-]; eexists; reflexivity ].
  destruct (all_runs_before_get request JNull
              (capture "/posts/" "id")
              (fun _ => Ok (mkModule (JStr "Post") (PlainObject (guarded "42"))))
              post_meta [about]
              (mkPatternResult (mkComponent "" []) (mkComponent "/posts/42" [("id", "42")]))
              (mkModule (JStr "Post") (PlainObject (guarded "42"))) world)
    as (Hboth & _); [reflexivity|reflexivity|].
  exact (Hboth (guarded "42") _ _ eq_refl eq_refl eq_refl).
Defined.

Lemma get_payload_only_from_200_response_witness :
  (exists route,
     fst (matchRoute request JNull [post (fetching (Plain (JNum 7)) JUndefined); about] world)
     = Ok (IsRoute route)
     /\ data route = None)
  /\ (exists route,
        fst (matchRoute request JNull
               [post (fetching (Resp (json_response "42")) JUndefined); about] world)
        = Ok (IsRoute route)
        /\ data route = Some (JNum 42)).
Proof.
  split.
  - apply (proj1 (get_payload_only_from_200_response request JNull
                    [post (fetching (Plain (JNum 7)) JUndefined); about] world) (JNum 7)).
    unfold get_comes_to. eexists _, _, _, _, _, _, _, _. repeat split.
  - apply (proj2 (proj2 (get_payload_only_from_200_response request JNull
                    [post (fetching (Resp (json_response "42")) JUndefined); about] world))
             (json_response "42") (JNum 42)).
    + unfold get_comes_to. eexists _, _, _, _, _, _, _, _. repeat split.
    + reflexivity.
    + reflexivity.
Defined.

Lemma ssr_response_headers_witness :
  (exists document w2,
     fetch request JNull (article (JNum 60)) world
     = (Ok (mkResponse 200
              [("Content-Type", "text/html; charset=utf-8");
               ("Cache-Control", "public, max-age=60")]
              (BodyDocument document)),
        w2))
  /\ (exists document w2,
        fetch request JNull (article (JStr "60")) world
        = (Ok (mkResponse 200
                 [("Content-Type", "text/html; charset=utf-8");
                  ("Cache-Control", "public, max-age=0, must-revalidate")]
                 (BodyDocument document)),
           w2)).
Proof.
  split.
  - destruct (ssr_response_headers request JNull (article (JNum 60)) world (fetched hi_text)
                (ssr "<article>Hi</article>") (context_with hi (JNum 60))
                "<article>Hi</article>" ["<meta name=" +:+ quoted "x" +:+ ">"])
      as (cacheControl & document & w2 & Hfetch & Hnumber & _);
      [reflexivity|reflexivity|reflexivity|].
    rewrite (Hnumber 60 eq_refl) in Hfetch.
    exists document, w2. exact Hfetch.
  - destruct (ssr_response_headers request JNull (article (JStr "60")) world (fetched hi_text)
                (ssr "<article>Hi</article>") (context_with hi (JStr "60"))
                "<article>Hi</article>" ["<meta name=" +:+ quoted "x" +:+ ">"])
      as (cacheControl & document & w2 & Hfetch & _ & Hother);
      [reflexivity|reflexivity|reflexivity|].
    rewrite Hother in Hfetch by discriminate.
    exists document, w2. exact Hfetch.
Defined.

Lemma data_script_expiry_attribute_witness :
  exists inserted,
    rewrite_node (ssr_handlers (context_with hi (JNum 60)) ["<title>Hi</title>"] "x"
                  ++ base_handlers (article (JNum 60)))
                 Site.marker_with_script (mkState false false)
    = (map Raw ["<title>Hi</title>"] ++ inserted
       ++ hydration (context_with hi (JNum 60)),
       mkState true false)
    /\ inserted
       = [Raw ("<script id=" +:+ quoted "aleph-ssr-data"
               +:+ " type=" +:+ quoted "application/json"
               +:+ " data-expires=" +:+ quoted "route.dataExpires" +:+ ">"
               +:+ JSON_stringify hi +:+ "</script>")].
Proof.
  destruct (data_script_expiry_attribute
              (context_with hi (JNum 60)) ["<title>Hi</title>"] "x"
              (article (JNum 60)) [] [Element "script" [("type", "module")] []]
              (mkState false false))
    as (inserted & Hrewritten & Hexpiry & _).
  exists inserted. split; [exact Hrewritten|].
  exact (proj2 (Hexpiry hi eq_refl eq_refl) eq_refl).
Defined.

(** C7, as stated, fails, in two ways. The loader of the counter answers the
    JSON text [0]: the context has the data payload [0], the callback
    answers markup, the base document has both markers, and the rewritten
    document has the markup and the module script but no JSON script
    element with the payload, because [if (route.data)] takes the payload
    [0] to be missing. And in a base document whose [ssr-body] marker is
    inside the [ssr-head] marker, with a truthy payload and a callback that
    answers markup, the markup is nowhere in the rewritten document: the
    content of the [ssr-head] marker is removed with it. *)
Lemma payload_or_marker_not_substituted :
  (exists headers document w2,
     matchRoute request JNull (routes counter) (snd (init_lol_html world))
     = (Ok (IsRoute (context_with (JNum 0) JUndefined)), fetched "0")
     /\ data (context_with (JNum 0) JUndefined) = Some (JNum 0)
     /\ ssr "<p>0</p>" (context_with (JNum 0) JUndefined) []
        = Ok (JStr "<p>0</p>", ["<meta name=" +:+ quoted "x" +:+ ">"])
     /\ Renderer.indexHtml counter = plug at_ssr_head [Element "ssr-head" [] []]
     /\ Renderer.indexHtml counter = plug at_ssr_body [Element "ssr-body" [] []]
     /\ fetch request JNull counter world
        = (Ok (mkResponse 200 headers (BodyDocument document)), w2)
     /\ flat_map raw_fragments document
        = ["<meta name=" +:+ quoted "x" +:+ ">";
           module_script (JSON_stringify (JStr "./routes/posts/[id].tsx"));
           "<script id=" +:+ quoted "aleph-routes"
           +:+ " type=" +:+ quoted "application/json" +:+ ">"
           +:+ JSON_stringify (JArr [meta_to_js post_meta; meta_to_js about_meta])
           +:+ "</script>";
           "<p>0</p>"]
     /\ existsb (json_script_with (JSON_stringify (JNum 0))) (flat_map raw_fragments document)
        = false
     /\ json_script_with (JSON_stringify (JNum 0)) (data_script "" (JSON_stringify (JNum 0)))
        = true)
  /\ (exists headers document w2,
        matchRoute request JNull (routes Site.enclosing) (snd (init_lol_html world))
        = (Ok (IsRoute (context_with hi JUndefined)), fetched hi_text)
        /\ truthy hi = true
        /\ ssr "<article>Hi</article>" (context_with hi JUndefined) []
           = Ok (JStr "<article>Hi</article>", ["<meta name=" +:+ quoted "x" +:+ ">"])
        /\ Renderer.indexHtml Site.enclosing
           = plug Site.at_enclosed_body [Element "ssr-body" [] []]
        /\ ancestors Site.at_enclosed_body = ["html"; "head"; "ssr-head"]
        /\ fetch request JNull Site.enclosing world
           = (Ok (mkResponse 200 headers (BodyDocument document)), w2)
        /\ flat_map raw_fragments document
           = ["<meta name=" +:+ quoted "x" +:+ ">";
              data_script "" (JSON_stringify hi);
              module_script (JSON_stringify (JStr "./routes/posts/[id].tsx"));
              "<script id=" +:+ quoted "aleph-routes"
              +:+ " type=" +:+ quoted "application/json" +:+ ">"
              +:+ JSON_stringify (JArr [meta_to_js post_meta; meta_to_js about_meta])
              +:+ "</script>"]
        /\ existsb (String.eqb "<article>Hi</article>") (flat_map raw_fragments document)
           = false).
Proof.
  split.
  - eexists _, _, _.
    do 5 (split; [reflexivity|]).
    split.
    { etransitivity;
        [apply (fetch_ssr request JNull counter world (fetched "0") (ssr "<p>0</p>")
                          (context_with (JNum 0) JUndefined) "<p>0</p>"
                          ["<meta name=" +:+ quoted "x" +:+ ">"]); reflexivity
        |reflexivity]. }
    repeat split; vm_compute; reflexivity.
  - eexists _, _, _.
    do 5 (split; [reflexivity|]).
    split.
    { etransitivity;
        [apply (fetch_ssr request JNull Site.enclosing world (fetched hi_text)
                          (ssr "<article>Hi</article>")
                          (context_with hi JUndefined) "<article>Hi</article>"
                          ["<meta name=" +:+ quoted "x" +:+ ">"]); reflexivity
        |reflexivity]. }
    repeat split; vm_compute; reflexivity.
Qed.

Lemma ssr_rewrite_substitution_witness :
  exists headers document w2,
    fetch request JNull (article (JNum 60)) world
    = (Ok (mkResponse 200 headers (BodyDocument document)), w2)
    /\ document
       = plug (fst (rewrite_context
                      (ssr_handlers (context_with hi (JNum 60))
                                    ["<meta name=" +:+ quoted "x" +:+ ">"]
                                    "<article>Hi</article>"
                       ++ base_handlers (article (JNum 60)))
                      at_ssr_body (fun st => st) (mkState false false)))
              [Raw "<article>Hi</article>"]
    /\ document
       = plug (fst (rewrite_context
                      (ssr_handlers (context_with hi (JNum 60))
                                    ["<meta name=" +:+ quoted "x" +:+ ">"]
                                    "<article>Hi</article>"
                       ++ base_handlers (article (JNum 60)))
                      at_ssr_head (fun st => st) (mkState false false)))
              (map Raw ["<meta name=" +:+ quoted "x" +:+ ">"]
               ++ Raw ("<script id=" +:+ quoted "aleph-ssr-data"
                       +:+ " type=" +:+ quoted "application/json"
                       +:+ " data-expires=" +:+ quoted "route.dataExpires"
                       +:+ ">" +:+ JSON_stringify hi
                       +:+ "</script>")
               :: hydration (context_with hi (JNum 60))).
Proof.
  destruct (ssr_rewrite_substitution request JNull (article (JNum 60)) world (fetched hi_text)
              (ssr "<article>Hi</article>") (context_with hi (JNum 60))
              "<article>Hi</article>" ["<meta name=" +:+ quoted "x" +:+ ">"] hi)
    as (headers & document & w2 & Hfetch & Hbody & Hhead);
    [reflexivity|reflexivity|reflexivity|reflexivity|reflexivity|].
  exists headers, document, w2. split; [exact Hfetch|]. split.
  - apply (Hbody at_ssr_body [] []); [reflexivity|].
    unfold unmarked. simpl. repeat constructor; discriminate.
  - apply (Hhead at_ssr_head [] []); [reflexivity|].
    unfold unmarked. simpl. repeat constructor; discriminate.
Defined.

End AppFacts.

(** * Further properties of the session module *)

Section SessionCoverage.
Import Session.

Lemma memory_get_after_set (now later : Z) (sid : string) (data : jsval) (expires : Z)
    (store : gmap string (jsval * Z)) :
  MemorySessionStorage.get later sid (MemorySessionStorage.set now sid data expires store)
  = if (0 <? expires) && (expires <? later)
    then (JUndefined, base.delete sid store)
    else (data, MemorySessionStorage.set now sid data expires store).
Proof.
  rewrite memory_get_lookup. unfold MemorySessionStorage.set.
  rewrite lookup_insert_eq.
  destruct ((0 <? expires) && (expires <? later)); [|reflexivity].
  now rewrite delete_insert_eq.
Qed.

(** X1. A record written by [set] is read back by [get] unchanged, and the
    storage is not modified, as long as the expiry is not positive or the
    clock has not passed it; once the clock is strictly past a positive
    expiry, [get] answers [undefined] and the record is removed. *)
Theorem memory_set_then_get (now later : Z) (sid : string) (data : jsval) (expires : Z)
    (store : gmap string (jsval * Z)) :
  (expires <= 0 \/ later <= expires ->
   MemorySessionStorage.get later sid (MemorySessionStorage.set now sid data expires store)
   = (data, MemorySessionStorage.set now sid data expires store))
  /\ (0 < expires -> expires < later ->
      MemorySessionStorage.get later sid (MemorySessionStorage.set now sid data expires store)
      = (JUndefined, base.delete sid store)).
Proof.
  rewrite memory_get_after_set. split.
  - intros Hlive.
    assert ((0 <? expires) && (expires <? later) = false) as ->; [|reflexivity].
    apply andb_false_iff. destruct Hlive; [left|right]; now apply Z.ltb_ge.
  - intros Hpositive Hpast.
    assert ((0 <? expires) && (expires <? later) = true) as ->; [|reflexivity].
    apply andb_true_iff. split; now apply Z.ltb_lt.
Qed.

Lemma memory_set_then_get_witness :
  MemorySessionStorage.get 500 "a"
    (MemorySessionStorage.set 100 "a" (JStr "x") 1000 MemorySessionStorage.new)
  = (JStr "x", MemorySessionStorage.set 100 "a" (JStr "x") 1000 MemorySessionStorage.new)
  /\ MemorySessionStorage.get 1001 "a"
       (MemorySessionStorage.set 100 "a" (JStr "x") 1000 MemorySessionStorage.new)
     = (JUndefined, base.delete "a" MemorySessionStorage.new).
Proof.
  split.
  - apply (memory_set_then_get 100 500 "a" (JStr "x") 1000 MemorySessionStorage.new).
    right. lia.
  - apply (memory_set_then_get 100 1001 "a" (JStr "x") 1000 MemorySessionStorage.new); lia.
Defined.

(** X2. [set] overwrites without condition and [delete] removes without
    condition: of two writes to one id only the second is kept; a delete
    undoes a write whatever the record held; deleting an id that has no
    record changes nothing; and after a delete, [get] answers [undefined] at
    any time and changes nothing. *)
Theorem memory_set_delete_compose (now now' later : Z) (sid : string)
    (data data' : jsval) (expires expires' : Z) (store : gmap string (jsval * Z)) :
  MemorySessionStorage.set now' sid data' expires'
    (MemorySessionStorage.set now sid data expires store)
  = MemorySessionStorage.set now' sid data' expires' store
  /\ MemorySessionStorage.delete now' sid (MemorySessionStorage.set now sid data expires store)
     = MemorySessionStorage.delete now' sid store
  /\ (store !! sid = None -> MemorySessionStorage.delete now sid store = store)
  /\ MemorySessionStorage.get later sid (MemorySessionStorage.delete now sid store)
     = (JUndefined, MemorySessionStorage.delete now sid store).
Proof.
  unfold MemorySessionStorage.set, MemorySessionStorage.delete.
  split; [apply insert_insert_eq|]. split; [apply delete_insert_eq|].
  split; [apply delete_id|].
  rewrite memory_get_lookup. now rewrite lookup_delete_eq.
Qed.

Lemma memory_set_delete_compose_witness :
  MemorySessionStorage.delete 5 "a" MemorySessionStorage.new = MemorySessionStorage.new.
Proof.
  apply (memory_set_delete_compose 5 5 5 "a" JNull JNull 0 0 MemorySessionStorage.new).
  reflexivity.
Defined.

(** X3. Reading is idempotent: a second [get] of the same id at the same
    clock answers what the first answered and leaves the map as the first
    left it. And a record that a [get] found expired is gone for good: any
    further [get], at whatever clock, answers [undefined]. *)
Theorem memory_get_idempotent (now later : Z) (sid : string)
    (store : gmap string (jsval * Z)) (data : jsval) (expires : Z) :
  MemorySessionStorage.get now sid (snd (MemorySessionStorage.get now sid store))
  = MemorySessionStorage.get now sid store
  /\ (store !! sid = Some (data, expires) -> 0 < expires -> expires < now ->
      MemorySessionStorage.get later sid (snd (MemorySessionStorage.get now sid store))
      = (JUndefined, base.delete sid store)).
Proof.
  split.
  - rewrite (memory_get_lookup now sid store).
    destruct (store !! sid) as [[d e]|] eqn:Hlookup.
    + destruct ((0 <? e) && (e <? now)) eqn:Hexpired; simpl.
      * rewrite memory_get_lookup. now rewrite lookup_delete_eq.
      * rewrite memory_get_lookup, Hlookup, Hexpired. reflexivity.
    + simpl. rewrite memory_get_lookup, Hlookup. reflexivity.
  - intros Hlookup Hpositive Hpast.
    rewrite (memory_get_lookup now sid store), Hlookup.
    assert ((0 <? expires) && (expires <? now) = true) as ->.
    { apply andb_true_iff. split; now apply Z.ltb_lt. }
    simpl. rewrite memory_get_lookup. now rewrite lookup_delete_eq.
Qed.

Lemma memory_get_idempotent_witness :
  MemorySessionStorage.get 5 "a"
    (snd (MemorySessionStorage.get 20 "a" (MemorySessionStorage.holding "a" (JStr "x") 10)))
  = (JUndefined, base.delete "a" (MemorySessionStorage.holding "a" (JStr "x") 10)).
Proof.
  apply (memory_get_idempotent 20 5 "a" (MemorySessionStorage.holding "a" (JStr "x") 10)
           (JStr "x") 10).
  - reflexivity.
  - lia.
  - lia.
Defined.

(** ** Sessions over the default storage *)

Lemma init_run {S} `{SessionStorage S} (this : SessionImpl) (w : World S) :
  init this w
  = (Ok (with_store this (fst (get (clock w) (_id this) (backend w)))),
     mkWorld (clock w) (snd (get (clock w) (_id this) (backend w)))
             (calls w ++ [CallGet (_id this)])).
Proof.
  unfold init, storage_get, bind, ret.
  now destruct (get (clock w) (_id this) (backend w)).
Qed.

Lemma end_run {S} `{SessionStorage S} (this : SessionImpl) (w : World S) :
  end_ this w
  = (Ok (with_store this JUndefined),
     if truthy (_store this) then w
     else mkWorld (clock w) (delete (clock w) (_id this) (backend w))
                  (calls w ++ [CallDelete (_id this)])).
Proof. unfold end_, bind. now destruct (truthy (_store this)). Qed.

Lemma update_rejects_or_accepts (store : update_arg) :
  (typeof_arg store <> "object" /\ typeof_arg store <> "function")
  \/ (typeof_arg store = "object" \/ typeof_arg store = "function").
Proof.
  destruct (decide (typeof_arg store = "object")); [right; now left|].
  destruct (decide (typeof_arg store = "function")); [right; now right|].
  now left.
Qed.

(** X4. A function given to [update] is applied to the cache of the session
    object, not to the persisted payload, and its result is stored without
    any check. So on a session object that was not initialised the function
    receives [undefined] even when the storage holds a live record, which is
    then overwritten; after [init] on a live record the function receives
    the persisted payload. *)
Theorem update_function_sees_cache (f : jsval -> jsval) (sid : string)
    (options : SessionOptions) (w : World (gmap string (jsval * Z)))
    (old : jsval) (expires : Z) :
  let fresh := new_SessionImpl sid options in
  let until := clock w + 1000 * default 1800 (maxAge options) in
  (exists w1,
     update (UFun f) fresh w = (Ok (with_store fresh (f JUndefined)), w1)
     /\ backend w1 !! sid = Some (f JUndefined, until))
  /\ (backend w !! sid = Some (old, expires) ->
      expires <= 0 \/ clock w <= expires ->
      exists w1 w2,
        init fresh w = (Ok (with_store fresh old), w1)
        /\ update (UFun f) (with_store fresh old) w1 = (Ok (with_store fresh (f old)), w2)
        /\ backend w2 !! sid = Some (f old, until)).
Proof.
  intros fresh until. split.
  - eexists. split.
    + apply (update_accepts (UFun f)). now right.
    + simpl. unfold MemorySessionStorage.set. apply lookup_insert_eq.
  - intros Hrecord Hlive.
    assert (MemorySessionStorage.get (clock w) sid (backend w) = (old, backend w)) as Hget.
    { rewrite memory_get_lookup, Hrecord.
      assert ((0 <? expires) && (expires <? clock w) = false) as ->; [|reflexivity].
      apply andb_false_iff. destruct Hlive; [left|right]; now apply Z.ltb_ge. }
    eexists _, _. split; [|split].
    + rewrite init_run. simpl. rewrite Hget. reflexivity.
    + rewrite (update_accepts (UFun f)) by now right. reflexivity.
    + simpl. unfold MemorySessionStorage.set. apply lookup_insert_eq.
Qed.

Lemma update_function_sees_cache_witness :
  exists w1 w2,
    init (new_SessionImpl "s1" (mkOptions None None))
         (mkWorld 1000 (MemorySessionStorage.holding "s1" (JNum 1) 5000) [])
    = (Ok (with_store (new_SessionImpl "s1" (mkOptions None None)) (JNum 1)), w1)
    /\ update (UFun (fun prev => JArr [prev]))
              (with_store (new_SessionImpl "s1" (mkOptions None None)) (JNum 1)) w1
       = (Ok (with_store (new_SessionImpl "s1" (mkOptions None None)) (JArr [JNum 1])), w2)
    /\ backend w2 !! "s1" = Some (JArr [JNum 1], 1000 + 1000 * 1800).
Proof.
  apply (update_function_sees_cache (fun prev => JArr [prev]) "s1" (mkOptions None None)
           (mkWorld 1000 (MemorySessionStorage.holding "s1" (JNum 1) 5000) [])
           (JNum 1) 5000).
  - reflexivity.
  - right. simpl. lia.
Defined.

(** X5. Expiry is rolling and one record is kept per id: after two updates
    with object payloads, the second at a later clock, the storage holds for
    the id only the second payload, with the expiry counted from the clock
    of the second update; the records of the other ids are as before the
    first update. *)
Theorem update_twice_keeps_last (this : SessionImpl) (first second : jsval)
    (w : World (gmap string (jsval * Z))) (later : Z) :
  typeof first = "object" ->
  typeof second = "object" ->
  exists w1 w2,
    update (UVal first) this w = (Ok (with_store this first), w1)
    /\ update (UVal second) (with_store this first) (at_time later w1)
       = (Ok (with_store this second), w2)
    /\ backend w2
       = <[_id this := (second, later + 1000 * default 1800 (maxAge (_options this)))]>
           (backend w).
Proof.
  intros Hfirst Hsecond. eexists _, _. split; [|split].
  - apply (update_accepts (UVal first)). now left.
  - rewrite (update_accepts (UVal second)) by now left. reflexivity.
  - simpl. unfold MemorySessionStorage.set. apply insert_insert_eq.
Qed.

Lemma update_twice_keeps_last_witness :
  exists w1 w2,
    update (UVal (JObj [])) (new_SessionImpl "s1" (mkOptions (Some 60) None))
           (mkWorld 1000 MemorySessionStorage.new [])
    = (Ok (with_store (new_SessionImpl "s1" (mkOptions (Some 60) None)) (JObj [])), w1)
    /\ update (UVal (JArr []))
              (with_store (new_SessionImpl "s1" (mkOptions (Some 60) None)) (JObj []))
              (at_time 2000 w1)
       = (Ok (with_store (new_SessionImpl "s1" (mkOptions (Some 60) None)) (JArr [])), w2)
    /\ backend w2
       = <["s1" := (JArr [], 2000 + 1000 * 60)]> MemorySessionStorage.new.
Proof.
  apply (update_twice_keeps_last (new_SessionImpl "s1" (mkOptions (Some 60) None))
           (JObj []) (JArr []) (mkWorld 1000 MemorySessionStorage.new []) 2000);
    reflexivity.
Defined.

(** X6. Ending a populated session takes two calls: with a truthy cache the
    first [end()] only clears the cache and makes no storage call, so the
    persisted record stays; a second [end()] on the same object deletes the
    record. *)
Theorem end_twice_deletes (this : SessionImpl) (w : World (gmap string (jsval * Z))) :
  truthy (_store this) = true ->
  end_ this w = (Ok (with_store this JUndefined), w)
  /\ exists w2,
       end_ (with_store this JUndefined) w = (Ok (with_store this JUndefined), w2)
       /\ backend w2 !! _id this = None
       /\ calls w2 = calls w ++ [CallDelete (_id this)].
Proof.
  intros Htruthy. split.
  - rewrite end_run, Htruthy. reflexivity.
  - eexists. split; [rewrite end_run; reflexivity|]. simpl. split; [|reflexivity].
    unfold MemorySessionStorage.delete. apply lookup_delete_eq.
Qed.

Lemma end_twice_deletes_witness :
  end_ (mkSession "s1" (mkOptions None None) (JObj []))
       (mkWorld 1000 (MemorySessionStorage.holding "s1" (JObj []) 5000) [])
  = (Ok (with_store (mkSession "s1" (mkOptions None None) (JObj [])) JUndefined),
     mkWorld 1000 (MemorySessionStorage.holding "s1" (JObj []) 5000) []).
Proof.
  apply (end_twice_deletes (mkSession "s1" (mkOptions None None) (JObj []))
           (mkWorld 1000 (MemorySessionStorage.holding "s1" (JObj []) 5000) [])).
  reflexivity.
Defined.

(** X7. A session expires: after [update(payload)] at a clock for which the
    expiry [now + 1000 * maxAge] is positive, a new session object with the
    same id that calls [init()] at a clock strictly past that expiry has an
    [undefined] cache, and the storage no longer holds a record for the
    id. *)
Theorem update_then_init_expired (this : SessionImpl) (options' : SessionOptions)
    (payload : jsval) (w : World (gmap string (jsval * Z))) (later : Z) :
  typeof payload = "object" ->
  0 < clock w + 1000 * default 1800 (maxAge (_options this)) ->
  clock w + 1000 * default 1800 (maxAge (_options this)) < later ->
  exists w1 w2,
    update (UVal payload) this w = (Ok (with_store this payload), w1)
    /\ init (new_SessionImpl (_id this) options') (at_time later w1)
       = (Ok (new_SessionImpl (_id this) options'), w2)
    /\ backend w2 !! _id this = None.
Proof.
  intros Hty Hpositive Hpast.
  assert (get later (_id this)
            (set (clock w) (_id this) payload
               (clock w + 1000 * default 1800 (maxAge (_options this))) (backend w))
          = (JUndefined, base.delete (_id this) (backend w))) as Hget.
  { cbn [get set defaultSessionStorage]. rewrite memory_get_after_set.
    assert ((0 <? clock w + 1000 * default 1800 (maxAge (_options this)))
            && (clock w + 1000 * default 1800 (maxAge (_options this)) <? later) = true)
      as ->; [|reflexivity].
    apply andb_true_iff. split; now apply Z.ltb_lt. }
  eexists _, _. split; [|split].
  - apply (update_accepts (UVal payload)). now left.
  - rewrite init_run. unfold at_time, new_SessionImpl, with_store.
    cbn [clock backend calls _id _options _store].
    rewrite Hget. reflexivity.
  - cbn [backend snd]. apply lookup_delete_eq.
Qed.

Lemma update_then_init_expired_witness :
  exists w1 w2,
    update (UVal (JObj [])) (new_SessionImpl "s1" (mkOptions (Some 60) None))
           (mkWorld 1000 MemorySessionStorage.new [])
    = (Ok (with_store (new_SessionImpl "s1" (mkOptions (Some 60) None)) (JObj [])), w1)
    /\ init (new_SessionImpl "s1" (mkOptions None None)) (at_time 61001 w1)
       = (Ok (new_SessionImpl "s1" (mkOptions None None)), w2)
    /\ backend w2 !! "s1" = None.
Proof.
  apply (update_then_init_expired (new_SessionImpl "s1" (mkOptions (Some 60) None))
           (mkOptions None None) (JObj []) (mkWorld 1000 MemorySessionStorage.new []) 61001).
  - reflexivity.
  - simpl. lia.
  - simpl. lia.
Defined.

(** X8. Sessions are isolated by id: whatever a session object does
    ([init], [update] with any argument, accepted or rejected, [end],
    [redirect]), the records the default storage holds for the other ids
    are left as they were. *)
Theorem session_leaves_other_ids (cookieHeader : string -> string -> option CookieOptions -> Z -> string)
    (this : SessionImpl) (arg : update_arg) (url : string)
    (w : World (gmap string (jsval * Z))) (other : string) :
  other <> _id this ->
  backend (snd (init this w)) !! other = backend w !! other
  /\ backend (snd (update arg this w)) !! other = backend w !! other
  /\ backend (snd (end_ this w)) !! other = backend w !! other
  /\ backend (snd (redirect cookieHeader url this w)) !! other = backend w !! other.
Proof.
  intros Hother. split; [|split; [|split]].
  - rewrite init_run. cbn [snd backend get defaultSessionStorage].
    rewrite memory_get_lookup.
    destruct (backend w !! _id this) as [[data expires]|]; [|reflexivity].
    destruct ((0 <? expires) && (expires <? clock w)); [|reflexivity].
    cbn [snd]. now apply lookup_delete_ne.
  - destruct (update_rejects_or_accepts arg) as [[Hobj Hfun] | Hok].
    + rewrite (update_rejects arg this w Hobj Hfun). reflexivity.
    + rewrite (update_accepts arg this w Hok). cbn [snd backend].
      now apply lookup_insert_ne.
  - rewrite end_run. destruct (truthy (_store this)); [reflexivity|].
    cbn [snd backend]. now apply lookup_delete_ne.
  - reflexivity.
Qed.

Lemma session_leaves_other_ids_witness :
  backend (snd (end_ (new_SessionImpl "s1" (mkOptions None None))
                  (mkWorld 1000 (MemorySessionStorage.holding "s2" (JObj []) 5000) [])))
    !! "s2"
  = MemorySessionStorage.holding "s2" (JObj []) 5000 !! "s2".
Proof.
  apply (session_leaves_other_ids (fun _ _ _ _ => "") (new_SessionImpl "s1" (mkOptions None None))
           (UVal JNull) "/" (mkWorld 1000 (MemorySessionStorage.holding "s2" (JObj []) 5000) [])
           "s2").
  discriminate.
Defined.

(** X9. The cookie of [redirect] agrees with the storage: right after an
    [update] with an object payload, at the same clock, the expiry given to
    [cookieHeader] is the expiry of the record just written; after [end()]
    it is 0, whatever the session held. In both cases the answer is a 302
    with the [Location] given, and [redirect] makes no storage call. *)
Theorem redirect_cookie_expiry (cookieHeader : string -> string -> option CookieOptions -> Z -> string)
    (url : string) (this : SessionImpl) (payload : jsval)
    (w : World (gmap string (jsval * Z))) :
  let cookieName :=
    default "session" (match cookie (_options this) with Some c => name c | None => None end) in
  let answer expires :=
    mkResponse 302
      [("Set-Cookie", cookieHeader cookieName (_id this) (cookie (_options this)) expires);
       ("Location", url)]
      (BodyText "") in
  (typeof payload = "object" ->
   exists this1 w1 expires,
     update (UVal payload) this w = (Ok this1, w1)
     /\ backend w1 !! _id this = Some (payload, expires)
     /\ redirect cookieHeader url this1 w1 = (Ok (answer expires), w1))
  /\ exists this2 w2,
       end_ this w = (Ok this2, w2)
       /\ redirect cookieHeader url this2 w2 = (Ok (answer 0), w2).
Proof.
  intros cookieName answer. split.
  - intros Hty. eexists _, _, _. split; [|split].
    + apply (update_accepts (UVal payload)). now left.
    + cbn [backend set defaultSessionStorage]. apply lookup_insert_eq.
    + unfold redirect, Date_now, gets, bind, ret, with_store.
      cbn [_store _id _options clock].
      destruct payload; try discriminate Hty; reflexivity.
  - eexists _, _. split; [apply end_run|]. reflexivity.
Qed.

Lemma redirect_cookie_expiry_witness :
  exists this1 w1 expires,
    update (UVal (JObj [])) (new_SessionImpl "s1" (mkOptions (Some 60) None))
           (mkWorld 1000 MemorySessionStorage.new [])
    = (Ok this1, w1)
    /\ backend w1 !! "s1" = Some (JObj [], expires)
    /\ redirect (fun name value _ expires => name +:+ "=" +:+ value) "/home" this1 w1
       = (Ok (mkResponse 302 [("Set-Cookie", "session=s1"); ("Location", "/home")]
                (BodyText "")), w1).
Proof.
  apply (redirect_cookie_expiry (fun name value _ expires => name +:+ "=" +:+ value) "/home"
           (new_SessionImpl "s1" (mkOptions (Some 60) None)) (JObj [])
           (mkWorld 1000 MemorySessionStorage.new [])).
  reflexivity.
Defined.

End SessionCoverage.

(** * Further properties of the renderer *)

(** Case analysis on the innermost scrutinees of the goal. *)
Ltac by_cases :=
  repeat first
    [ progress cbn beta iota
    | match goal with
      | |- context [match ?x with _ => _ end] =>
          lazymatch x with
          | context [match _ with _ => _ end] => fail
          | (_, _) => fail
          | _ => destruct x eqn:?
          end
      end ].

Section RendererCoverage.
Import Renderer.
Context `{Externals}.

(** ** What [matchRoute] does to the world *)

Lemma logged_nil (w : World) : logged [] w = w.
Proof. destruct w. unfold logged. simpl. now rewrite app_nil_r. Qed.

(** The events of a terminated case are among the calls of one route, in
    their order. *)
Ltac in_order :=
  repeat first [ apply sublist_nil_l | apply sublist_skip | apply sublist_cons ].

Lemma iteration_events (req : Request) (ctx : jsval) (url : URL) (pathname : string)
    (pattern : IURLPattern) (load : unit -> result RouteModule) (meta : RouteMeta)
    (w : World) :
  exists events,
    snd (iteration req ctx url pathname (pattern, load, meta) w) = logged events w
    /\ match exec pattern (mkInput None pathname) with
       | None => events = []
       | Some ret_ =>
           let request :=
             new_Request (appendUrlParams url (groups (result_pathname ret_))) req in
           exists response,
             sublist events
               [CallLoad meta; CallAll request; AwaitAll;
                CallGet request ctx; AwaitGet; ReadJson response]
             /\ head events = Some (CallLoad meta)
       end.
Proof.
  unfold iteration. destruct (exec pattern (mkInput None pathname)) as [ret_|].
  - unfold await. unfold bind, emit, modify, lift, ret.
    by_cases.
    all: cbn [snd]; rewrite ?logged_logged.
    all: eexists; split; [reflexivity|].
    all: cbn [app]; eexists; split; [in_order|reflexivity].
    Unshelve. all: exact (mkResponse 200 [] BodyNull).
  - exists []. split; [|reflexivity]. cbn [snd]. symmetry. apply logged_nil.
Qed.

(** X10. [matchRoute] touches the world only through the calls of the first
    route of the table: with an empty table, or when the pattern of the
    first route does not match, it calls nothing; when the pattern matches
    it first calls the loader of that route, and then at most once [all],
    at most once [get] and at most once [json] of a response, in this order,
    with the awaits between them. No loader or fetcher of another route is
    called, the file system is not read and nothing is reported as an
    error. *)
Theorem matchRoute_calls (req : Request) (ctx : jsval) (routes : list Route) (w : World) :
  exists events,
    snd (matchRoute req ctx routes w) = logged events w
    /\ match routes with
       | [] => events = []
       | (pattern, load, meta) :: _ =>
           match exec pattern (mkInput None (cleanPath (pathname (req_url req)))) with
           | None => events = []
           | Some ret_ =>
               let request :=
                 new_Request (appendUrlParams (req_url req) (groups (result_pathname ret_)))
                             req in
               exists response,
                 sublist events
                   [CallLoad meta; CallAll request; AwaitAll;
                    CallGet request ctx; AwaitGet; ReadJson response]
                 /\ head events = Some (CallLoad meta)
           end
       end.
Proof.
  destruct routes as [|[[pattern load] meta] rest].
  - exists []. split; [|reflexivity].
    rewrite matchRoute_nil. cbn [snd]. symmetry. apply logged_nil.
  - rewrite matchRoute_cons. apply iteration_events.
Qed.

(** The events of [matchRoute] are calls of routes. *)
Lemma matchRoute_logs (req : Request) (ctx : jsval) (routes : list Route) (w : World) :
  exists events,
    snd (matchRoute req ctx routes w) = logged events w
    /\ ~ In InitWasm events.
Proof.
  destruct routes as [|[[pattern load] meta] rest].
  - exists []. split; [|now intros []].
    rewrite matchRoute_nil. cbn [snd]. symmetry. apply logged_nil.
  - rewrite matchRoute_cons.
    destruct (iteration_events req ctx (req_url req) (cleanPath (pathname (req_url req)))
                pattern load meta w) as (events & -> & Hevents).
    exists events. split; [reflexivity|].
    destruct (exec pattern _) as [ret_|]; [|subst; now intros []].
    destruct Hevents as (response & Hsub & _). intros Hin.
    apply list_elem_of_In in Hin.
    pose proof (elem_of_sublist _ _ _ Hin Hsub) as Hamong.
    repeat (apply elem_of_cons in Hamong as [Heq | Hamong]; [discriminate Heq|]).
    now apply elem_of_nil in Hamong.
Qed.

Lemma init_lol_html_mtime (w : World) :
  index_mtime (snd (init_lol_html w)) = index_mtime w.
Proof.
  rewrite init_lol_html_cases. destruct (lolHtmlReady w); [reflexivity|].
  destruct (wasm w) as [[]|err]; reflexivity.
Qed.

Lemma once_ready_fst {A} (w : World) (x y : result A * World) :
  fst x = fst y -> fst (once_ready w x) = fst (once_ready w y).
Proof.
  intros Hxy. unfold once_ready.
  destruct (init_lol_html w) as [[u|err] w']; [exact Hxy|reflexivity].
Qed.

(** ** The static path of [fetch] *)

(** The start of [fetch]: the engine, then the [try] block. *)
Ltac run_fetch :=
  rewrite fetch_once_ready; f_equal; unfold try_catch, try_block; unfold bind at 1.

(** The block of [if (!withSSR)] and what follows it. *)
Ltac run_static :=
  unfold bind, emit, modify, lift, ret; cbn [negb index_mtime logged];
  rewrite ?init_lol_html_mtime.

(** X11. Without an SSR callback, [fetch] reads the modification time of
    [./index.html] and consults no route. When there is a modification time
    and the request header [If-Modified-Since] is equal to it, the answer
    is 304 with no body and no header, and the document is not rewritten.
    Otherwise the answer is 200 with the content type, [Last-Modified] when
    there is a modification time, and [Cache-Control] asking to revalidate,
    in this order, and its body is the base document rewritten by the
    handlers of [link], [script], [head] and [body] alone. Without a
    modification time the request header is not looked at. These are the
    answers of [fetch] whenever the engine is ready or its initialisation
    is fulfilled; a rejected initialisation is thrown by [fetch] before
    any path is taken. *)
Theorem static_conditional_get (req : Request) (ctx : jsval) (options : RenderOptions)
    (w : World) :
  ssrHandler options = None ->
  let document :=
    BodyDocument
      (fst (rewrite_nodes (base_handlers options) (indexHtml options) (mkState false false))) in
  let w1 := logged [Lstat] (snd (init_lol_html w)) in
  (forall mtime,
     index_mtime w = Ok (Some mtime) ->
     headers_get "If-Modified-Since" (req_headers req) = Some mtime ->
     fetch req ctx options w = once_ready w (Ok (mkResponse 304 [] BodyNull), w1))
  /\ (forall mtime,
        index_mtime w = Ok (Some mtime) ->
        headers_get "If-Modified-Since" (req_headers req) <> Some mtime ->
        fetch req ctx options w
        = once_ready w
            (Ok (mkResponse 200
                   [("Content-Type", "text/html; charset=utf-8");
                    ("Last-Modified", mtime);
                    ("Cache-Control", "public, max-age=0, must-revalidate")]
                   document), w1))
  /\ (index_mtime w = Ok None ->
      fetch req ctx options w
      = once_ready w
          (Ok (mkResponse 200
                 [("Content-Type", "text/html; charset=utf-8");
                  ("Cache-Control", "public, max-age=0, must-revalidate")]
                 document), w1)).
Proof.
  intros Hssr document w1. split; [|split].
  - intros mtime Hstat Hsince. run_fetch. rewrite Hssr. run_static.
    rewrite Hstat, Hsince, String.eqb_refl. reflexivity.
  - intros mtime Hstat Hsince. run_fetch. rewrite Hssr. run_static.
    rewrite Hstat.
    destruct (headers_get "If-Modified-Since" (req_headers req)) as [since|]; [|reflexivity].
    destruct (String.eqb_spec since mtime) as [->|]; [now elim Hsince|reflexivity].
  - intros Hstat. run_fetch. rewrite Hssr. run_static.
    rewrite Hstat. reflexivity.
Qed.

(** ** Errors *)




(** X13. A response answered by [matchRoute] is the answer of [fetch] as
    it is: the SSR callback is not called, no header is added, the
    document is not rewritten and the file system is not read. In
    particular, when [get] of the examined route comes to a response whose
    status is not 200, that response is what [fetch] answers, and [fetch]
    leaves the world as [matchRoute] left it. This is the answer of [fetch]
    whenever the engine is ready or its initialisation is fulfilled; a
    rejected initialisation is thrown by [fetch] before any path is
    taken. *)
Theorem fetcher_response_passes_through (req : Request) (ctx : jsval)
    (options : RenderOptions) (w : World)
    (callback : RenderContext -> list string -> result (jsval * list string)) :
  ssrHandler options = Some callback ->
  (forall response w1,
     matchRoute req ctx (routes options) (snd (init_lol_html w)) = (Ok (IsResponse response), w1) ->
     fetch req ctx options w = once_ready w (Ok response, w1))
  /\ (forall response,
        get_comes_to req ctx (routes options) (Ok (Resp response)) ->
        resp_status response <> 200 ->
        fetch req ctx options w
        = once_ready w
            (Ok response, snd (matchRoute req ctx (routes options) (snd (init_lol_html w))))).
Proof.
  intros Hssr.
  assert (forall response w1,
            matchRoute req ctx (routes options) (snd (init_lol_html w))
            = (Ok (IsResponse response), w1) ->
            fetch req ctx options w = once_ready w (Ok response, w1)) as Hthrough.
  { intros response w1 Hmatch. run_fetch. rewrite Hssr.
    unfold bind at 1. rewrite Hmatch. reflexivity. }
  split; [exact Hthrough|].
  intros response Hget Hstatus.
  destruct (matchRoute_get req ctx (routes options) _ (snd (init_lol_html w)) Hget)
    as (route & _ & Hrun).
  apply Z.eqb_neq in Hstatus. rewrite Hstatus in Hrun. cbn [negb] in Hrun.
  destruct (matchRoute req ctx (routes options) (snd (init_lol_html w))) as [answer w1] eqn:Hmatch.
  cbn [fst snd] in *. subst answer. now apply Hthrough.
Qed.

(** X14. A callback that declines is as no callback: when the SSR callback
    answers something that is no string ([null], [undefined]), the answer
    of [fetch] is the one it gives for the same options without callback:
    the conditional request is honoured, the headers are those of the
    static path, the head fragments the callback collected are dropped and
    only the four base handlers rewrite the document. *)
Theorem declining_callback_is_static (req : Request) (ctx : jsval)
    (options static : RenderOptions) (w w1 : World)
    (callback : RenderContext -> list string -> result (jsval * list string))
    (route : RenderContext) (ssrOutput : jsval) (headCollection : list string) :
  ssrHandler options = Some callback ->
  matchRoute req ctx (routes options) (snd (init_lol_html w)) = (Ok (IsRoute route), w1) ->
  callback route [] = Ok (ssrOutput, headCollection) ->
  typeof ssrOutput <> "string" ->
  static = mkRenderOptions (indexHtml options) (routes options) (isDev options) None ->
  fst (fetch req ctx options w) = fst (fetch req ctx static w).
Proof.
  intros Hssr Hmatch Hcall Hty ->.
  destruct (matchRoute_logs req ctx (routes options) (snd (init_lol_html w)))
    as (events & Hworld & _).
  rewrite Hmatch in Hworld. cbn [snd] in Hworld. subst w1.
  assert (match ssrOutput with
          | JStr _ => False
          | _ => True
          end) as Hshape.
  { destruct ssrOutput; try exact I. now elim Hty. }
  rewrite !fetch_once_ready. apply once_ready_fst.
  pose proof (init_lol_html_mtime w) as Hmtime.
  set (w0 := snd (init_lol_html w)) in *.
  unfold try_catch. unfold try_block at 1. unfold bind at 1. rewrite Hssr.
  unfold bind at 1. rewrite Hmatch.
  unfold bind at 1. unfold bind at 1. unfold bind at 1. unfold emit at 1, modify, lift at 1.
  rewrite Hcall.
  destruct ssrOutput; try (now elim Hshape); clear Hshape.
  all: unfold try_block; cbn [ssrHandler].
  all: unfold bind, emit, modify, lift, ret; cbn [negb index_mtime logged isDev indexHtml routes].
  all: destruct (index_mtime w0) as [[mtime|]|err]; [| reflexivity |].
  all: try (destruct (headers_get "If-Modified-Since" (req_headers req)) as [since|];
            [|reflexivity]; destruct (String.eqb since mtime); reflexivity).
  all: unfold catch_block, log_error_stack, message_first_line, bind, emit, modify, lift,
         ret, throw; cbn [isDev].
  all: by_cases; reflexivity.
Qed.

(** ** Every outcome of [fetch] *)

(** What the block of [try] answers. *)
Lemma try_block_kinds (req : Request) (ctx : jsval) (options : RenderOptions)
    (w0 w1 : World) (response : Response) :
  try_block req ctx options w0 = (Ok response, w1) ->
  (exists headers document,
     response
     = mkResponse 200 (("Content-Type", "text/html; charset=utf-8") :: headers)
                  (BodyDocument document)
     /\ headers_get "Cache-Control" headers <> None)
  \/ response = mkResponse 304 [] BodyNull
  \/ (ssrHandler options <> None
      /\ fst (matchRoute req ctx (routes options) w0) = Ok (IsResponse response)).
Proof.
  unfold try_block. unfold bind at 1.
  destruct (ssrHandler options) as [callback|] eqn:Hssr.
  - unfold bind at 1.
    destruct (matchRoute req ctx (routes options) w0) as [[[answer|route]|err] w2] eqn:Hmatch.
    + cbn. intros [= <- <-]. right. right. split; [discriminate|reflexivity].
    + unfold bind, emit, modify, lift, ret. cbn [negb].
      by_cases.
      all: intros Heq; try discriminate Heq; injection Heq as <- <-.
      all: first
        [ left; eexists _, _; split; [reflexivity|]; cbn; discriminate
        | right; left; reflexivity ].
    + discriminate.
  - unfold bind, emit, modify, lift, ret. cbn [negb].
    by_cases.
    all: intros Heq; try discriminate Heq; injection Heq as <- <-.
    all: first
      [ left; eexists _, _; split; [reflexivity|]; cbn; discriminate
      | right; left; reflexivity ].
Qed.

(** X15. Every outcome of [fetch]. When [fetch] answers, its answer is of
    one of four kinds: a 200 with a document as body, whose first header is
    the content type [text/html; charset=utf-8] and which has a
    [Cache-Control] header; a 304 without body, on which no header is set;
    a 500 on which no header is set and whose body is
    [Internal Server Error] in production and the first line of a message
    in development; or, only when
    there is an SSR callback, the response that [matchRoute] answered.
    [fetch] throws in two cases only: the initialisation of the engine was
    rejected, or the block of [try] threw something that is no [Error],
    namely [null] or [undefined], or, in development, a value whose
    [message] is no string. *)
Theorem fetch_outcomes (req : Request) (ctx : jsval) (options : RenderOptions)
    (w : World) :
  let w0 := snd (init_lol_html w) in
  match fetch req ctx options w with
  | (Ok response, _) =>
      (exists headers document,
         response
         = mkResponse 200 (("Content-Type", "text/html; charset=utf-8") :: headers)
                      (BodyDocument document)
         /\ headers_get "Cache-Control" headers <> None)
      \/ response = mkResponse 304 [] BodyNull
      \/ (exists message,
            response
            = mkResponse 500 []
                (BodyText (if isDev options then first_line message
                           else "Internal Server Error")))
      \/ (ssrHandler options <> None
          /\ fst (matchRoute req ctx (routes options) w0) = Ok (IsResponse response))
  | (Throw err, _) =>
      fst (init_lol_html w) = Throw err
      \/ exists inner w1,
           try_block req ctx options w0 = (Throw inner, w1)
           /\ (inner = Thrown JNull
               \/ inner = Thrown JUndefined
               \/ (isDev options = true
                   /\ exists v,
                        inner = Thrown v
                        /\ forall message, member "message" v <> JStr message))
  end.
Proof.
  intros w0. rewrite fetch_once_ready. fold w0. unfold once_ready.
  destruct (init_lol_html w) as [[u|err] w'] eqn:Hinit; [|now left].
  unfold try_catch.
  destruct (try_block req ctx options w0) as [[response|inner] w1] eqn:Htry.
  - destruct (try_block_kinds _ _ _ _ _ _ Htry) as [Hdocument | [Hnot_modified | Hthrough]].
    + now left.
    + right. now left.
    + right. right. now right.
  - unfold catch_block, log_error_stack, message_first_line, bind, emit, modify, lift, ret,
      throw.
    destruct inner as [message|v].
    + destruct (isDev options); right; right; left;
        first [eexists; reflexivity | exists EmptyString; reflexivity].
    + destruct v.
      1: right; eexists _, _; split; [reflexivity|]; right; now left.
      1: right; eexists _, _; split; [reflexivity|]; now left.
      all: destruct (isDev options) eqn:Hdev;
        [|right; right; left; exists EmptyString; reflexivity].
      all: cbn [member].
      all: try (right; eexists _, _; split; [reflexivity|]; right; right;
                split; [reflexivity|]; eexists; split; [reflexivity|];
                intros message; cbn [member]; discriminate).
      destruct (field "message" fields) as [| | | |message| |] eqn:Hfield.
      all: try (right; eexists _, _; split; [reflexivity|]; right; right;
                split; [reflexivity|]; eexists; split; [reflexivity|];
                intros message'; cbn [member]; rewrite Hfield; discriminate).
      right. right. left. eexists. reflexivity.
Qed.

(** ** The initialisation of the engine *)

(** What [try] and [catch] do to the world: only the log grows, by events
    that are no initialisation. *)
Lemma handled_world (req : Request) (ctx : jsval) (options : RenderOptions) (w0 : World) :
  exists events,
    snd (try_catch (try_block req ctx options) (catch_block options) w0) = logged events w0
    /\ ~ In InitWasm events.
Proof.
  assert (forall (outcome : result Response) events inner w1,
            w1 = logged events w0 -> ~ In InitWasm events ->
            exists events',
              snd (match outcome with
                   | Ok a => (Ok a, w1)
                   | Throw _ => catch_block options inner w1
                   end) = logged events' w0
              /\ ~ In InitWasm events') as Hcatch.
  { intros outcome events inner w1 -> Hnone.
    destruct outcome as [a|e]; [now exists events|].
    unfold catch_block, log_error_stack, message_first_line, bind, emit, modify, lift, ret,
      throw.
    by_cases; cbn [snd]; rewrite ?logged_logged;
      first [ now exists events
            | eexists; split; [reflexivity|];
              rewrite in_app_iff; intros [Hin|[Hin|[]]];
              [now apply Hnone|discriminate Hin] ]. }
  unfold try_catch, try_block. unfold bind at 1.
  destruct (ssrHandler options) as [callback|] eqn:Hssr.
  - unfold bind at 1.
    destruct (matchRoute_logs req ctx (routes options) w0) as (events & Hworld & Hnone).
    destruct (matchRoute req ctx (routes options) w0) as [answer w1] eqn:Hmatch.
    cbn [snd] in Hworld. subst w1.
    destruct answer as [[response|route]|err].
    + now exists events.
    + unfold bind, emit, modify, lift, ret. cbn [negb].
      by_cases.
      all: cbn [negb] in *; try discriminate.
      all: rewrite ?logged_logged.
      all: match goal with
           | |- exists _, snd (catch_block _ ?inner (logged ?made _)) = _ /\ _ =>
               apply (Hcatch (Throw inner) made inner); [reflexivity|]
           | |- exists _, snd (_, logged ?made _) = _ /\ _ =>
               exists made; split; [reflexivity|]
           end.
      all: rewrite in_app_iff; intros [Hin|Hin]; [now apply Hnone|].
      all: cbn in Hin; intuition discriminate.
    + apply (Hcatch (Throw err) events err); [reflexivity|exact Hnone].
  - unfold bind, emit, modify, lift, ret. cbn [negb].
    by_cases.
    all: cbn [negb] in *; try discriminate.
    all: rewrite ?logged_logged.
    all: match goal with
         | |- exists _, snd (catch_block _ ?inner (logged ?made _)) = _ /\ _ =>
             apply (Hcatch (Throw inner) made inner); [reflexivity|]
         | |- exists _, snd (_, logged ?made _) = _ /\ _ =>
             exists made; split; [reflexivity|]
         end.
    all: intros Hin; cbn in Hin; intuition discriminate.
Qed.

(** X16. The initialisation of the rewriting engine. When the flag
    [lolHtmlReady] is set, [fetch] does not initialise, and changes nothing
    of the world but the log. When it is not set, [fetch] first calls
    [initWasm]. If that is fulfilled, the flag is set, and a call of
    [fetch] made after this one has returned does not initialise again. If
    it is rejected, [fetch] throws the rejection without answering, since
    the block is outside of [try], nothing is logged as an error, the flag
    stays as it was, and the next call initialises again. The flag is
    tested before the [await] and set after it: a second call that starts
    while the first awaits its initialisation finds the flag not set, and
    initialises too. *)
Theorem engine_initialisation (req req' : Request) (ctx ctx' : jsval)
    (options options' : RenderOptions) (w : World) :
  (lolHtmlReady w = true ->
   exists events,
     snd (fetch req ctx options w) = logged events w /\ ~ In InitWasm events)
  /\ (lolHtmlReady w = false -> wasm w = Ok tt ->
      let w1 := snd (fetch req ctx options w) in
      exists events events',
        w1 = mkWorld true (wasm w) (index_mtime w) (log w ++ InitWasm :: events)
        /\ ~ In InitWasm events
        /\ snd (fetch req' ctx' options' w1) = logged events' w1
        /\ ~ In InitWasm events')
  /\ (forall err,
        lolHtmlReady w = false -> wasm w = Throw err ->
        fetch req ctx options w = (Throw err, logged [InitWasm] w)
        /\ fetch req' ctx' options' (logged [InitWasm] w)
           = (Throw err, logged [InitWasm; InitWasm] w))
  /\ (lolHtmlReady w = false ->
      start_init w = (Ok true, logged [InitWasm] w)
      /\ start_init (logged [InitWasm] w) = (Ok true, logged [InitWasm; InitWasm] w)).
Proof.
  assert (forall r c o (v : World),
            lolHtmlReady v = true ->
            exists events,
              snd (fetch r c o v) = logged events v /\ ~ In InitWasm events) as Hready.
  { intros r c o v Hv. rewrite fetch_once_ready. unfold once_ready.
    rewrite init_lol_html_cases, Hv. cbn [snd]. apply handled_world. }
  split; [apply Hready|]. split; [|split].
  - intros Hnot Hwasm w1.
    assert (init_lol_html w
            = (Ok tt, mkWorld true (wasm w) (index_mtime w) (log w ++ [InitWasm]))) as Hinit.
    { rewrite init_lol_html_cases, Hnot, Hwasm. reflexivity. }
    destruct (handled_world req ctx options
                (mkWorld true (wasm w) (index_mtime w) (log w ++ [InitWasm])))
      as (events & Hworld & Hnone).
    assert (w1 = mkWorld true (wasm w) (index_mtime w) (log w ++ InitWasm :: events)) as Hw1.
    { subst w1. rewrite fetch_once_ready. unfold once_ready. rewrite Hinit. cbn [snd].
      rewrite Hworld. unfold logged. cbn. now rewrite <- app_assoc. }
    destruct (Hready req' ctx' options' w1) as (events' & Hw2 & Hnone').
    { now rewrite Hw1. }
    exists events, events'. now repeat split.
  - intros err Hnot Hwasm.
    assert (forall r c o events,
              fetch r c o (logged events w) = (Throw err, logged (events ++ [InitWasm]) w))
      as Hthrows.
    { intros r c o events. unfold fetch, bind. rewrite init_lol_html_cases.
      cbn [lolHtmlReady wasm logged]. rewrite Hnot, Hwasm. cbn [logged].
      unfold logged. cbn. now rewrite <- app_assoc. }
    split.
    + unfold fetch, bind. rewrite init_lol_html_cases, Hnot, Hwasm. reflexivity.
    + apply (Hthrows req' ctx' options' [InitWasm]).
  - intros Hnot. unfold start_init, bind, gets, emit, modify, ret.
    cbn [lolHtmlReady logged]. rewrite Hnot. cbn [negb].
    split; [reflexivity|]. rewrite logged_logged. reflexivity.
Qed.

(** X19. The context answered for a matching route is that of the first
    route of the table: when its pattern matches and its module loads, any
    context [matchRoute] answers has the URL with the captured groups as
    parameters, the default export of that module, the file name of that
    route and, as cache expiry, the [cacheTtl] of the data configuration
    ([undefined] when the export [data] is no plain object). When the
    loader rejects, [matchRoute] throws after that one call. *)
Theorem matched_context_is_of_first_route (req : Request) (ctx : jsval)
    (pattern : IURLPattern) (load : unit -> result RouteModule) (meta : RouteMeta)
    (rest : list Route) (ret_ : URLPatternResult) (w : World) :
  exec pattern (mkInput None (cleanPath (pathname (req_url req)))) = Some ret_ ->
  (forall err,
     load tt = Throw err ->
     matchRoute req ctx ((pattern, load, meta) :: rest) w
     = (Throw err, logged [CallLoad meta] w))
  /\ (forall module_ route,
        load tt = Ok module_ ->
        fst (matchRoute req ctx ((pattern, load, meta) :: rest) w) = Ok (IsRoute route) ->
        url route = appendUrlParams (req_url req) (groups (result_pathname ret_))
        /\ moduleDefaultExport route = mod_default module_
        /\ filename route = Some (meta_filename meta)
        /\ dataExpires route
           = match mod_data module_ with
             | PlainObject config => cacheTtl config
             | NotPlainObject _ => JUndefined
             end).
Proof.
  intros Hexec. split.
  - intros err Hload. rewrite matchRoute_cons. unfold iteration. rewrite Hexec.
    unfold bind, emit, modify, lift. now rewrite Hload.
  - intros module_ route Hload. rewrite matchRoute_cons. unfold iteration. rewrite Hexec.
    unfold await. unfold bind, emit, modify, lift, ret. rewrite Hload.
    destruct (mod_data module_) as [config|other]; cbn [empty_config get all cacheTtl].
    all: by_cases; cbn [fst]; intros [= <-]; repeat split.
Qed.

End RendererCoverage.

(** * Insertions of the base handlers *)

Lemma node_induction (P : node -> Prop) :
  (forall s, P (Text s)) ->
  (forall html, P (Raw html)) ->
  (forall t attrs children, Forall P children -> P (Element t attrs children)) ->
  forall n, P n.
Proof.
  intros HText HRaw HElement. fix IH 1.
  intros [s|html|t attrs children]; [apply HText|apply HRaw|].
  apply HElement.
  induction children as [|c rest IHrest]; constructor; [apply IH|exact IHrest].
Qed.

Section Counting.
Import Renderer Markup.

Variable html : string.

Lemma occurrences_app (l1 l2 : list node) :
  occurrences html (l1 ++ l2) = (occurrences html l1 + occurrences html l2)%nat.
Proof. unfold occurrences. now rewrite flat_map_app, count_occ_app. Qed.

Lemma occurrences_element (t : string) (attrs : list (string * string))
    (children : list node) :
  occurrences html [Element t attrs children] = occurrences html children.
Proof. unfold occurrences. cbn [flat_map raw_fragments]. now rewrite app_nil_r. Qed.

Lemma occurrences_raw (inserted : string) :
  occurrences html [Raw inserted] = if string_dec inserted html then 1%nat else 0%nat.
Proof. unfold occurrences. cbn. now destruct (string_dec inserted html). Qed.

(** The flags account for the insertions: [measure] is what the flags say
    was inserted. *)
Variable measure : RewriteState -> nat.

Lemma fold_handlers_accounted (handlers : list (string * handler))
    (start acc : El * RewriteState) :
  Forall (fun entry : string * handler =>
            forall el st, accounted html measure (el, st) (snd entry el st)) handlers ->
  accounted html measure start acc ->
  accounted html measure start
    (fold_left
       (fun acc '(selector, h) =>
          if String.eqb selector (el_tagName (fst acc)) then h (fst acc) (snd acc) else acc)
       handlers acc).
Proof.
  intros Hhandlers. revert acc.
  induction Hhandlers as [|[selector h] rest Hh Hrest IH]; intros acc Hacc; [exact Hacc|].
  cbn [fold_left]. apply IH.
  destruct (String.eqb selector (el_tagName (fst acc))); [|exact Hacc].
  specialize (Hh (fst acc) (snd acc)). cbn [snd] in Hh.
  destruct Hacc as [Hd Hc], Hh as [Hd' Hc']. cbn [fst snd] in *.
  split; [congruence|lia].
Qed.

Variable handlers : list (string * handler).

Hypothesis handlers_accounted :
  Forall (fun entry : string * handler =>
            forall el st, accounted html measure (el, st) (snd entry el st)) handlers.

Lemma run_handlers_accounted (el : El) (st : RewriteState) :
  accounted html measure (el, st) (run_handlers handlers el st).
Proof.
  apply fold_handlers_accounted; [exact handlers_accounted|]. split; reflexivity.
Qed.

Lemma rewrite_accounted (n : node) :
  forall st,
    (occurrences html (fst (rewrite_node handlers n st)) + measure st
     = occurrences html [n] + measure (snd (rewrite_node handlers n st)))%nat.
Proof.
  induction n as [s|inserted|t attrs children IH] using node_induction; intros st;
    [reflexivity|reflexivity|].
  assert (forall st,
            (occurrences html (fst (rewrite_nodes handlers children st)) + measure st
             = occurrences html children
               + measure (snd (rewrite_nodes handlers children st)))%nat) as Hchildren.
  { clear st. induction IH as [|c rest Hc Hrest IHrest]; intros st; [reflexivity|].
    rewrite rewrite_nodes_cons.
    specialize (Hc st). destruct (rewrite_node handlers c st) as [out1 st1].
    specialize (IHrest st1). destruct (rewrite_nodes handlers rest st1) as [out2 st2].
    cbn [fst snd] in *.
    change (c :: rest) with ([c] ++ rest). rewrite !occurrences_app. lia. }
  rewrite rewrite_node_element, occurrences_element.
  pose proof (run_handlers_accounted (new_El t attrs) st) as [Hkept Hcount].
  destruct (run_handlers handlers (new_El t attrs) st) as [el st1].
  cbn [fst snd] in *.
  change (dropped (new_El t attrs)) with false in Hkept.
  specialize (Hchildren st1).
  destruct (rewrite_nodes handlers children st1) as [children' st2].
  cbn [fst snd] in *.
  unfold dropped in Hkept. apply orb_false_iff in Hkept as [Hremoved Hreplaced].
  unfold emitted. rewrite Hremoved.
  destruct (el_replacement el); [discriminate|].
  unfold insertions in Hcount. cbn [new_El el_before el_appended el_after app] in Hcount.
  rewrite !occurrences_app in Hcount.
  rewrite !occurrences_app, occurrences_element, occurrences_app.
  change (occurrences html []) with 0%nat in Hcount. lia.
Qed.

Lemma rewrite_nodes_accounted (document : list node) (st : RewriteState) :
  (occurrences html (fst (rewrite_nodes handlers document st)) + measure st
   = occurrences html document + measure (snd (rewrite_nodes handlers document st)))%nat.
Proof.
  revert st. induction document as [|n rest IH]; intros st; [reflexivity|].
  rewrite rewrite_nodes_cons.
  pose proof (rewrite_accounted n st) as Hn.
  destruct (rewrite_node handlers n st) as [out1 st1].
  specialize (IH st1). destruct (rewrite_nodes handlers rest st1) as [out2 st2].
  cbn [fst snd] in *.
  change (n :: rest) with ([n] ++ rest). rewrite !occurrences_app. lia.
Qed.

End Counting.

Section BaseInsertions.
Import Renderer Markup.
Context `{Externals}.

Lemma insertions_after (html content : string) (el : El) :
  insertions html (after content el)
  = ((if string_dec content html then 1 else 0) + insertions html el)%nat.
Proof.
  unfold insertions. cbn [after el_before el_appended el_after].
  change (Raw content :: el_after el) with ([Raw content] ++ el_after el).
  rewrite !occurrences_app, occurrences_raw. lia.
Qed.

Lemma insertions_append (html content : string) (el : El) :
  insertions html (append content el)
  = ((if string_dec content html then 1 else 0) + insertions html el)%nat.
Proof.
  unfold insertions. cbn [append el_before el_appended el_after].
  rewrite !occurrences_app, occurrences_raw. lia.
Qed.

Lemma insertions_setAttribute (html name value : string) (el : El) :
  insertions html (setAttribute name value el) = insertions html el.
Proof. reflexivity. Qed.

(** Two markups that differ are told apart by their first characters. *)
Ltac differ Heq :=
  unfold nomodule_script, routes_script, quoted, dq in Heq; cbn in Heq; discriminate Heq.

Ltac count_insertions :=
  repeat first [ rewrite insertions_after
               | rewrite insertions_append
               | rewrite insertions_setAttribute ];
  repeat match goal with
         | |- context [string_dec ?x ?y] =>
             let Heq := fresh "Heq" in
             destruct (string_dec x y) as [Heq|Heq];
             [try differ Heq | try (now elim Heq)]
         end;
  unfold nomodule_count, routes_count; cbn [nomoduleInserted handled];
  repeat match goal with
         | Hb : _ && _ = true |- _ => apply andb_prop in Hb as [? ?]
         | Hb : negb _ = true |- _ => apply negb_true_iff in Hb
         end;
  repeat match goal with
         | Hflag : ?flag = _ |- context [?flag] => rewrite Hflag
         end;
  cbn [andb]; try lia.

Lemma linkHandler_accounted_nomodule (isDev : bool) (el : El) (st : RewriteState) :
  accounted nomodule_script nomodule_count (el, st) (linkHandler isDev el st).
Proof.
  split; [apply linkHandler_keeps|].
  unfold linkHandler. by_cases; cbn [fst snd]; count_insertions.
Qed.

Lemma scriptHandler_accounted_nomodule (el : El) (st : RewriteState) :
  accounted nomodule_script nomodule_count (el, st) (scriptHandler el st).
Proof.
  split; [apply scriptHandler_keeps|].
  unfold scriptHandler. by_cases; cbn [fst snd]; count_insertions.
Qed.

Lemma commonHandler_accounted_nomodule (routes : list Route) (isDev : bool)
    (el : El) (st : RewriteState) :
  accounted nomodule_script nomodule_count (el, st) (commonHandler routes isDev el st).
Proof.
  split; [apply commonHandler_keeps|].
  unfold commonHandler. by_cases; cbn [fst snd]; count_insertions.
Qed.

Lemma linkHandler_accounted_routes (routes : list Route) (isDev : bool)
    (el : El) (st : RewriteState) :
  accounted (routes_script routes) (routes_count routes) (el, st) (linkHandler isDev el st).
Proof.
  split; [apply linkHandler_keeps|].
  unfold linkHandler. by_cases; cbn [fst snd]; count_insertions.
Qed.

Lemma scriptHandler_accounted_routes (routes : list Route) (el : El) (st : RewriteState) :
  accounted (routes_script routes) (routes_count routes) (el, st) (scriptHandler el st).
Proof.
  split; [apply scriptHandler_keeps|].
  unfold scriptHandler. by_cases; cbn [fst snd]; count_insertions.
Qed.

Lemma commonHandler_accounted_routes (routes : list Route) (isDev : bool)
    (el : El) (st : RewriteState) :
  accounted (routes_script routes) (routes_count routes) (el, st)
            (commonHandler routes isDev el st).
Proof.
  split; [apply commonHandler_keeps|].
  unfold commonHandler. by_cases; cbn [fst snd]; count_insertions.
Qed.

(** X17. The base handlers insert each of their two scripts once at most:
    rewriting a document with the handlers of [link], [script], [head] and
    [body], as [fetch] does on the static path, adds to the document
    exactly one fallback script for browsers without modules when the flag
    [nomoduleInserted] is set at the end and none otherwise, and exactly
    one script with the routes manifest when the flag [handled] is set at
    the end and the table of routes is not empty, and none otherwise,
    however many module scripts, [head] and [body] elements the document
    has. *)
Theorem base_scripts_inserted_once (options : RenderOptions) (document : list node) :
  let rewritten :=
    rewrite_nodes (base_handlers options) document (mkState false false) in
  occurrences nomodule_script (fst rewritten)
  = (occurrences nomodule_script document
     + if nomoduleInserted (snd rewritten) then 1 else 0)%nat
  /\ occurrences (routes_script (routes options)) (fst rewritten)
     = (occurrences (routes_script (routes options)) document
        + if handled (snd rewritten) && (0 <? length (routes options))%nat then 1 else 0)%nat.
Proof.
  intros rewritten. split.
  - pose proof (rewrite_nodes_accounted nomodule_script nomodule_count
                  (base_handlers options)) as Hcount.
    assert (Forall (fun entry : string * handler =>
                      forall el st,
                        accounted nomodule_script nomodule_count (el, st) (snd entry el st))
                   (base_handlers options)) as Hall.
    { unfold base_handlers.
      repeat (apply List.Forall_cons;
              [ intros el st; cbn [snd];
                first [ apply linkHandler_accounted_nomodule
                      | apply scriptHandler_accounted_nomodule
                      | apply commonHandler_accounted_nomodule ] |]).
      apply List.Forall_nil. }
    specialize (Hcount Hall document (mkState false false)).
    fold rewritten in Hcount. unfold nomodule_count at 1 in Hcount.
    cbn [nomoduleInserted] in Hcount. unfold nomodule_count in Hcount. lia.
  - pose proof (rewrite_nodes_accounted (routes_script (routes options))
                  (routes_count (routes options)) (base_handlers options)) as Hcount.
    assert (Forall (fun entry : string * handler =>
                      forall el st,
                        accounted (routes_script (routes options))
                                  (routes_count (routes options)) (el, st) (snd entry el st))
                   (base_handlers options)) as Hall.
    { unfold base_handlers.
      repeat (apply List.Forall_cons;
              [ intros el st; cbn [snd];
                first [ apply linkHandler_accounted_routes
                      | apply scriptHandler_accounted_routes
                      | apply commonHandler_accounted_routes ] |]).
      apply List.Forall_nil. }
    specialize (Hcount Hall document (mkState false false)).
    fold rewritten in Hcount. unfold routes_count at 1 in Hcount.
    cbn [handled andb] in Hcount. unfold routes_count in Hcount. lia.
Qed.

End BaseInsertions.

(** * Attributes *)

Section Attributes.
Import Renderer.
Context `{Externals}.

Lemma get_set_attr (name value : string) (attrs : list (string * string)) :
  headers_get name (set_attr name value attrs) = Some value.
Proof.
  induction attrs as [|[k v] rest IH]; cbn [set_attr headers_get].
  - now rewrite String.eqb_refl.
  - destruct (String.eqb k name) eqn:Hk; cbn [headers_get]; now rewrite Hk.
Qed.

Lemma set_attr_same (name value : string) (attrs : list (string * string)) :
  headers_get name attrs = Some value -> set_attr name value attrs = attrs.
Proof.
  induction attrs as [|[k v] rest IH]; cbn [set_attr headers_get]; [discriminate|].
  destruct (String.eqb k name); [now intros [= ->]|].
  intros Hrest. now rewrite IH.
Qed.

Lemma slice_relative (s : string) :
  startsWith s "./" = true ->
  startsWith (slice 1 s) "./" = false /\ startsWith (slice 1 s) "/" = true.
Proof.
  unfold startsWith, slice. destruct s as [|a [|b rest]]; cbn [String.prefix].
  - discriminate.
  - match goal with
    | |- context [Ascii.ascii_dec ?c a] => destruct (Ascii.ascii_dec c a)
    end; discriminate.
  - match goal with
    | |- context [Ascii.ascii_dec ?c a] => destruct (Ascii.ascii_dec c a) as [<-|]
    end; [|discriminate].
    match goal with
    | |- context [Ascii.ascii_dec ?c b] => destruct (Ascii.ascii_dec c b) as [<-|]
    end; [|discriminate].
    intros _. split; [reflexivity|].
    cbn. now destruct (substring 0 (String.length rest) rest).
Qed.

(** X18. Relative addresses are made absolute, once: after the handler of
    [link] the attribute [href] of the element, if it has one, does not
    start with [./], and after the handler of [script] neither does its
    attribute [src]; an address that started with [./] starts with [/]
    afterwards, and the attributes of an element whose address does not
    start with [./] are left as they are. The handler of [link] inserts
    markup after the element only in development, and then only when the
    address it wrote ends with [.css] and starts with [/]. *)
Theorem relative_addresses_made_absolute (isDev : bool) (el : El) (st : RewriteState) :
  let link := fst (linkHandler isDev el st) in
  let script := fst (scriptHandler el st) in
  (forall href, getAttribute "href" link = Some href -> startsWith href "./" = false)
  /\ (forall src, getAttribute "src" script = Some src -> startsWith src "./" = false)
  /\ (forall href,
        getAttribute "href" el = Some href -> startsWith href "./" = true ->
        exists href',
          getAttribute "href" link = Some href' /\ startsWith href' "/" = true)
  /\ (forall href,
        getAttribute "href" el = Some href -> startsWith href "./" = false ->
        el_attributes link = el_attributes el)
  /\ (forall src,
        getAttribute "src" el = Some src -> startsWith src "./" = false ->
        el_attributes script = el_attributes el)
  /\ (el_after link = el_after el
      \/ (isDev = true
          /\ exists href,
               getAttribute "href" link = Some href
               /\ endsWith href ".css" = true /\ startsWith href "/" = true)).
Proof.
  intros link script. subst link script.
  unfold linkHandler, scriptHandler, getAttribute.
  repeat split.
  - intros href'.
    destruct (headers_get "href" (el_attributes el)) as [href|] eqn:Hhref;
      cbn [fst]; [|now rewrite Hhref].
    destruct (String.eqb_spec href "") as [->|Hne]; cbn [negb fst].
    { rewrite Hhref. now intros [= <-]. }
    destruct (startsWith href "./") eqn:Hrel.
    + assert (el_attributes
                (if endsWith (slice 1 href) ".css" && startsWith (slice 1 href) "/" && isDev
                 then after ("<script type=" +:+ quoted "module" +:+ ">import hot from "
                             +:+ quoted (alephPkgUri +:+ "framework/core/hmr.ts")
                             +:+ ";hot(" +:+ JSON_stringify (JStr ("." +:+ slice 1 href))
                             +:+ ").accept();</script>")
                            (setAttribute "href" (slice 1 href) el)
                 else setAttribute "href" (slice 1 href) el)
              = set_attr "href" (slice 1 href) (el_attributes el)) as ->.
      { now destruct (endsWith _ _ && _ && isDev). }
      rewrite get_set_attr. intros [= <-]. now apply slice_relative.
    + assert (el_attributes
                (if endsWith href ".css" && startsWith href "/" && isDev
                 then after ("<script type=" +:+ quoted "module" +:+ ">import hot from "
                             +:+ quoted (alephPkgUri +:+ "framework/core/hmr.ts")
                             +:+ ";hot(" +:+ JSON_stringify (JStr ("." +:+ href))
                             +:+ ").accept();</script>")
                            (setAttribute "href" href el)
                 else setAttribute "href" href el)
              = set_attr "href" href (el_attributes el)) as ->.
      { now destruct (endsWith _ _ && _ && isDev). }
      rewrite get_set_attr. now intros [= <-].
  - intros src'.
    destruct (match headers_get "type" (el_attributes el) with
              | Some t => String.eqb t "module"
              | None => false
              end && negb (nomoduleInserted st)).
    all: destruct (headers_get "src" (el_attributes el)) as [src|] eqn:Hsrc;
      cbn [fst el_attributes after]; [|now rewrite Hsrc].
    all: destruct (startsWith src "./") eqn:Hrel; cbn [fst el_attributes after setAttribute].
    all: first [ rewrite get_set_attr; intros [= <-]; now apply slice_relative
               | rewrite Hsrc; now intros [= <-] ].
  - intros href Hhref Hrel. rewrite Hhref.
    destruct (String.eqb_spec href "") as [->|Hne]; [discriminate Hrel|]. cbn [negb fst].
    rewrite Hrel. exists (slice 1 href).
    split; [|now apply slice_relative].
    destruct (endsWith _ _ && _ && isDev); cbn [el_attributes after setAttribute];
      apply get_set_attr.
  - intros href Hhref Hrel. rewrite Hhref.
    destruct (String.eqb_spec href "") as [->|Hne]; [reflexivity|]. cbn [negb fst].
    rewrite Hrel.
    destruct (endsWith _ _ && _ && isDev); cbn [el_attributes after setAttribute];
      now apply set_attr_same.
  - intros src Hsrc Hrel. rewrite Hsrc, Hrel.
    destruct (_ && negb (nomoduleInserted st)); reflexivity.
  - destruct (headers_get "href" (el_attributes el)) as [href|] eqn:Hhref;
      [|now left].
    destruct (String.eqb_spec href "") as [->|Hne]; [now left|]. cbn [negb fst].
    set (href' := if startsWith href "./" then slice 1 href else href).
    destruct (endsWith href' ".css" && startsWith href' "/" && isDev) eqn:Hhot;
      [|now left].
    right. apply andb_prop in Hhot as [Hhot ->]. apply andb_prop in Hhot as [Hcss Habs].
    split; [reflexivity|]. exists href'.
    cbn [el_attributes after setAttribute]. rewrite get_set_attr. now repeat split.
Qed.

End Attributes.

(** * The properties on the example sites *)

Section SiteFacts.
Import Renderer Runtime App.

Lemma static_conditional_get_witness :
  fetch (Site.conditional Site.mtime) JNull Site.options Site.world
  = (Ok (mkResponse 304 [] BodyNull), logged [Lstat] (snd (init_lol_html Site.world))).
Proof.
  destruct (static_conditional_get (Site.conditional Site.mtime) JNull Site.options Site.world)
    as (Hnot_modified & _); [reflexivity|].
  apply (Hnot_modified Site.mtime); reflexivity.
Defined.


Lemma engine_initialisation_witness :
  fetch request JNull Site.options Site.broken
  = (Throw (Error "WebAssembly.instantiate(): invalid module"), logged [InitWasm] Site.broken)
  /\ start_init (logged [InitWasm] Site.world)
     = (Ok true, logged [InitWasm; InitWasm] Site.world).
Proof.
  destruct (engine_initialisation request request JNull JNull Site.options Site.options
              Site.broken) as (_ & _ & Hrejected & _).
  destruct (engine_initialisation request request JNull JNull Site.options Site.options
              Site.world) as (_ & _ & _ & Hoverlap).
  split.
  - apply (Hrejected (Error "WebAssembly.instantiate(): invalid module")); reflexivity.
  - apply Hoverlap. reflexivity.
Defined.

Lemma fetcher_response_passes_through_witness :
  fetch request JNull (App.options (guarded hi_text) "<p>Hi</p>") world
  = (Ok login,
     logged [CallLoad post_meta; CallAll (new_Request resolved request); AwaitAll] world).
Proof.
  destruct (fetcher_response_passes_through request JNull
              (App.options (guarded hi_text) "<p>Hi</p>") world (ssr "<p>Hi</p>"))
    as (Hthrough & _); [reflexivity|].
  apply Hthrough. reflexivity.
Defined.

Lemma declining_callback_is_static_witness :
  fst (fetch (Site.conditional Site.mtime) JNull Site.declining Site.world)
  = fst (fetch (Site.conditional Site.mtime) JNull Site.options Site.world).
Proof.
  apply (declining_callback_is_static (Site.conditional Site.mtime) JNull Site.declining
           Site.options Site.world (snd (init_lol_html Site.world))
           (fun _ headCollection => Ok (JNull, headCollection))
           (only_url (req_url (Site.conditional Site.mtime))) JNull []).
  - reflexivity.
  - reflexivity.
  - reflexivity.
  - discriminate.
  - reflexivity.
Defined.

Lemma matched_context_is_of_first_route_witness :
  filename (context_with hi (JNum 60)) = Some (meta_filename post_meta)
  /\ dataExpires (context_with hi (JNum 60)) = JNum 60.
Proof.
  destruct (matched_context_is_of_first_route request JNull
              (capture "/posts/" "id")
              (fun _ => Ok (mkModule (JStr "Post")
                              (PlainObject (fetching (Resp (json_response hi_text)) (JNum 60)))))
              post_meta [about]
              (mkPatternResult (mkComponent "" []) (mkComponent "/posts/42" [("id", "42")]))
              world)
    as (_ & Hcontext); [reflexivity|].
  destruct (Hcontext (mkModule (JStr "Post")
                        (PlainObject (fetching (Resp (json_response hi_text)) (JNum 60))))
                     (context_with hi (JNum 60)))
    as (_ & _ & Hfilename & Hexpires); [reflexivity|reflexivity|].
  split; [exact Hfilename|exact Hexpires].
Defined.

End SiteFacts.

(** * The structure of a rewritten document *)

Section Structure.
Import Renderer Markup.
Context `{Externals}.

Lemma set_attr_names (name value : string) (attrs : list (string * string)) :
  map fst (set_attr name value attrs)
  = match headers_get name attrs with
    | Some _ => map fst attrs
    | None => map fst attrs ++ [name]
    end.
Proof.
  induction attrs as [|[k v] rest IH]; cbn [set_attr headers_get map fst app]; [reflexivity|].
  destruct (String.eqb k name); [reflexivity|].
  cbn [map fst]. rewrite IH. now destruct (headers_get name rest).
Qed.

Lemma blank_names (attrs attrs' : list (string * string)) :
  map fst attrs' = map fst attrs ->
  map (fun kv : string * string => (fst kv, EmptyString)) attrs'
  = map (fun kv : string * string => (fst kv, EmptyString)) attrs.
Proof.
  intros Hnames.
  rewrite <- (map_map fst (fun k : string => (k, EmptyString)) attrs').
  rewrite <- (map_map fst (fun k : string => (k, EmptyString)) attrs).
  now rewrite Hnames.
Qed.

Lemma in_place_refl (x : El * RewriteState) : in_place x x.
Proof. repeat split. Qed.

Lemma in_place_trans (x y z : El * RewriteState) :
  in_place x y -> in_place y z -> in_place x z.
Proof.
  intros (Hd & Ht & Hn & Hb & Hp & Ha) (Hd' & Ht' & Hn' & Hb' & Hp' & Ha').
  repeat split; congruence.
Qed.

Lemma fold_handlers_in_place (handlers : list (string * handler))
    (start acc : El * RewriteState) :
  Forall (fun entry : string * handler => forall el st, in_place (el, st) (snd entry el st))
         handlers ->
  in_place start acc ->
  in_place start
    (fold_left
       (fun acc '(selector, h) =>
          if String.eqb selector (el_tagName (fst acc)) then h (fst acc) (snd acc) else acc)
       handlers acc).
Proof.
  intros Hhandlers. revert acc.
  induction Hhandlers as [|[selector h] rest Hh Hrest IH]; intros acc Hacc; [exact Hacc|].
  cbn [fold_left]. apply IH.
  destruct (String.eqb selector (el_tagName (fst acc))); [|exact Hacc].
  apply (in_place_trans _ acc); [exact Hacc|].
  specialize (Hh (fst acc) (snd acc)). cbn [snd] in Hh. now destruct acc.
Qed.

Lemma linkHandler_in_place (isDev : bool) (el : El) (st : RewriteState) :
  in_place (el, st) (linkHandler isDev el st).
Proof.
  unfold linkHandler, getAttribute.
  destruct (headers_get "href" (el_attributes el)) as [href|] eqn:Hhref;
    [|apply in_place_refl].
  destruct (negb (String.eqb href "")); [|apply in_place_refl].
  destruct (endsWith _ ".css" && _ && isDev); repeat split;
    cbn [fst el_attributes after setAttribute]; now rewrite set_attr_names, Hhref.
Qed.

Lemma scriptHandler_in_place (el : El) (st : RewriteState) :
  in_place (el, st) (scriptHandler el st).
Proof.
  unfold scriptHandler, getAttribute.
  destruct (_ && negb (nomoduleInserted st));
    destruct (headers_get "src" (el_attributes el)) as [src|] eqn:Hsrc;
    try destruct (startsWith src "./"); repeat split;
    cbn [fst el_attributes after setAttribute]; now rewrite set_attr_names, Hsrc.
Qed.

Lemma commonHandler_in_place (routes : list Route) (isDev : bool) (el : El)
    (st : RewriteState) :
  in_place (el, st) (commonHandler routes isDev el st).
Proof.
  unfold commonHandler.
  destruct (handled st), (0 <? length routes)%nat, isDev; repeat split;
    cbn [fst el_appended append]; rewrite ?flat_map_app; cbn [flat_map skeleton app];
    now rewrite ?app_nil_r.
Qed.

Lemma base_handlers_in_place (options : RenderOptions) :
  Forall (fun entry : string * handler => forall el st, in_place (el, st) (snd entry el st))
         (base_handlers options).
Proof.
  unfold base_handlers.
  repeat (apply List.Forall_cons;
          [ intros el st; cbn [snd];
            first [ apply linkHandler_in_place
                  | apply scriptHandler_in_place
                  | apply commonHandler_in_place ] |]).
  apply List.Forall_nil.
Qed.

Lemma rewrite_node_skeleton (options : RenderOptions) (n : node) :
  forall st,
    flat_map skeleton (fst (rewrite_node (base_handlers options) n st)) = skeleton n.
Proof.
  induction n as [s|inserted|t attrs children IH] using node_induction; intros st;
    [reflexivity|reflexivity|].
  assert (forall st,
            flat_map skeleton (fst (rewrite_nodes (base_handlers options) children st))
            = flat_map skeleton children) as Hchildren.
  { clear st. induction IH as [|c rest Hc Hrest IHrest]; intros st; [reflexivity|].
    rewrite rewrite_nodes_cons.
    specialize (Hc st). destruct (rewrite_node (base_handlers options) c st) as [out1 st1].
    specialize (IHrest st1).
    destruct (rewrite_nodes (base_handlers options) rest st1) as [out2 st2].
    cbn [fst snd flat_map] in *. rewrite flat_map_app. congruence. }
  rewrite rewrite_node_element.
  pose proof (fold_handlers_in_place (base_handlers options) _ _
                (base_handlers_in_place options) (in_place_refl (new_El t attrs, st)))
    as (Hkept & Htag & Hnames & Hbefore & Happended & Hafter).
  fold (run_handlers (base_handlers options) (new_El t attrs) st) in *.
  destruct (run_handlers (base_handlers options) (new_El t attrs) st) as [el st1].
  cbn [fst snd new_El el_tagName el_attributes el_before el_appended el_after flat_map] in *.
  change (dropped (new_El t attrs)) with false in Hkept.
  specialize (Hchildren st1).
  destruct (rewrite_nodes (base_handlers options) children st1) as [children' st2].
  cbn [fst snd] in *.
  unfold dropped in Hkept. apply orb_false_iff in Hkept as [Hremoved Hreplaced].
  unfold emitted. rewrite Hremoved.
  destruct (el_replacement el); [discriminate|].
  rewrite !flat_map_app, Hbefore, Hafter. cbn [flat_map skeleton app].
  rewrite flat_map_app, Happended, Hchildren, Htag, (blank_names _ _ Hnames).
  now rewrite !app_nil_r.
Qed.

(** X20. The base handlers leave the document in place: rewriting with the
    handlers of [link], [script], [head] and [body] removes, moves, renames
    and adds no element and no text, and adds and removes no attribute.
    Apart from the markup inserted and the values of attributes, the
    rewritten document is the document, whatever the flags at the start;
    in particular the markers [ssr-head] and [ssr-body] stay where they
    are on the static path. *)
Theorem base_handlers_keep_structure (options : RenderOptions) (document : list node)
    (st : RewriteState) :
  flat_map skeleton (fst (rewrite_nodes (base_handlers options) document st))
  = flat_map skeleton document.
Proof.
  revert st. induction document as [|n rest IH]; intros st; [reflexivity|].
  rewrite rewrite_nodes_cons.
  pose proof (rewrite_node_skeleton options n st) as Hn.
  destruct (rewrite_node (base_handlers options) n st) as [out1 st1].
  specialize (IH st1). destruct (rewrite_nodes (base_handlers options) rest st1) as [out2 st2].
  cbn [fst snd flat_map] in *. rewrite flat_map_app. congruence.
Qed.

End Structure.

Section StylesheetFacts.
Import Renderer Runtime.

Lemma relative_addresses_made_absolute_witness :
  exists href,
    getAttribute "href"
      (fst (linkHandler true (new_El "link" [("rel", "stylesheet"); ("href", "./style.css")])
              (mkState false false)))
    = Some href
    /\ startsWith href "/" = true.
Proof.
  destruct (relative_addresses_made_absolute true
              (new_El "link" [("rel", "stylesheet"); ("href", "./style.css")])
              (mkState false false))
    as (_ & _ & Habsolute & _).
  apply (Habsolute "./style.css"); reflexivity.
Defined.

End StylesheetFacts.
